(** * alphacats: the training script [model/train.py]

    A shallow embedding of the training pipeline: the dimensional constants,
    the network graph assembled by [build_model] with two denotations of
    its layers, one over the reals and one in single precision, the sample
    loader [load_data], the batch-size loop and the driver [main] as a
    program in a state-and-exception monad over a small file-system model. *)

From Stdlib Require Import ZArith QArith Reals Lra Lia SpecFloat.
From stdpp Require Import base option list strings gmap fin_maps.

(** ** Dimensional constants *)

Module Constants.

Definition TF_GRAPH_TAG : string := "serve".

Definition MAX_HISTORY : nat := 58.
Definition N_ACTION_FEATURES : nat := 16.
Definition NUM_CARD_TYPES : nat := 11.
Definition NUM_CARDS_IN_DECK : nat := 23.
Definition MAX_CARDS_IN_DRAW_PILE : nat := 13.
Definition MAX_INSERT_POSITIONS : nat := 8.
Definition N_OUTPUTS : nat := 2 * NUM_CARD_TYPES + MAX_INSERT_POSITIONS + 1.

End Constants.

(** ** Batch-size selection

    [[
    batch_size = 32
    while batch_size * 128 < n_samples and batch_size < 2048:
        batch_size *= 2
    ]]
    Python integers are unbounded, hence [Z].  The loop is run with fuel:
    [None] means the fuel ran out before the guard became false. *)

Module BatchSize.

Open Scope Z_scope.

Definition guard (n_samples batch_size : Z) : bool :=
  (batch_size * 128 <? n_samples) && (batch_size <? 2048).

Fixpoint while_loop (fuel : nat) (n_samples batch_size : Z) : option Z :=
  if guard n_samples batch_size then
    match fuel with
    | O => None
    | S fuel' => while_loop fuel' n_samples (batch_size * 2)
    end
  else Some batch_size.

Definition select (fuel : nat) (n_samples : Z) : option Z :=
  while_loop fuel n_samples 32.

End BatchSize.

(** ** The network graph and its denotation

    [build_model] only assembles a Keras layer graph; the graph is kept as
    a term, and [eval] gives the per-sample forward pass, with floating
    point idealised as the reals.  Learned parameters and the behaviour of
    the recurrent layers and of dropout are supplied from outside through
    [params]. *)

Module Net.

Inductive activation := linear | tanh_act.

Inductive regularizer := l2 (coef : Q).

Inductive recurrent := GRU (units : nat) (return_sequences : bool).

#[warnings="-register-all"]
Inductive layer : Type :=
| Input (name : string) (sh : list nat)
| Dense (units : nat) (act : activation) (name : option string)
        (kernel_regularizer : option regularizer) (x : layer)
| LeakyReLU (x : layer)
| Bidirectional (r : recurrent) (x : layer)
| Concatenate (xs : list layer)
| Dropout (rate : Q) (x : layer)
| Multiply (xs : list layer)
| Softmax (name : string) (x : layer).

Inductive loss := categorical_crossentropy | mean_squared_error.
Inductive metric := mean_absolute_error.
Inductive optimizer := Adam (clipnorm : Q).

Record Model := {
  inputs : list layer;
  outputs : list layer;
  losses : list loss;
  model_optimizer : optimizer;
  metrics : list metric
}.

Definition build_model (history_shape hands_shape drawpile_shape
                        output_mask_shape : list nat) (policy_shape : nat) : Model :=
  let history_input := Input "history" history_shape in
  let hands_input := Input "hands" hands_shape in
  let drawpile_input := Input "drawpile" drawpile_shape in
  let output_mask_input := Input "output_mask" output_mask_shape in
  (* The history (GRU) arm of the model. *)
  let history_hidden_1 := Dense 32 linear None None history_input in
  let history_relu_1 := LeakyReLU history_hidden_1 in
  let history_hidden_2 := Dense 16 linear None None history_relu_1 in
  let history_relu_2 := LeakyReLU history_hidden_2 in
  let history_lstm := Bidirectional (GRU 32 false) history_relu_2 in
  (* The draw pile (GRU) arm of the model. *)
  let drawpile_hidden_1 := Dense 16 linear None None drawpile_input in
  let drawpile_relu_1 := LeakyReLU drawpile_hidden_1 in
  let drawpile_hidden_2 := Dense 16 linear None None drawpile_relu_1 in
  let drawpile_relu_2 := LeakyReLU drawpile_hidden_2 in
  let drawpile_lstm := Bidirectional (GRU 16 false) drawpile_relu_2 in
  (* The hands arm of the model. *)
  let hands_hidden_1 := Dense 32 linear None None hands_input in
  let hands_relu_1 := LeakyReLU hands_hidden_1 in
  let hands_hidden_2 := Dense 32 linear None None hands_relu_1 in
  let hands_relu_2 := LeakyReLU hands_hidden_2 in
  (* Concatenate history, hand, and draw pile, then some dense layers. *)
  let merged_inputs_1 := Concatenate [history_lstm; drawpile_lstm; hands_relu_2] in
  let merged_hidden_1 := Dense 128 linear None None merged_inputs_1 in
  let relu_1 := LeakyReLU merged_hidden_1 in
  let dropout_1 := Dropout (2 # 10) relu_1 in
  let merged_hidden_2 := Dense 128 linear None None dropout_1 in
  let relu_2 := LeakyReLU merged_hidden_2 in
  (* Policy output head. *)
  let policy_hidden_1 :=
    Dense policy_shape linear None (Some (l2 (1 # 1000))) relu_2 in
  let policy_masked := Multiply [policy_hidden_1; output_mask_input] in
  let policy_output := Softmax "policy" policy_masked in
  (* Value output head. *)
  let value_output :=
    Dense 1 tanh_act (Some "value") (Some (l2 (1 # 1000))) relu_2 in
  {| inputs := [history_input; hands_input; drawpile_input; output_mask_input];
     outputs := [policy_output; value_output];
     losses := [categorical_crossentropy; mean_squared_error];
     model_optimizer := Adam 1;
     metrics := [mean_absolute_error] |}.

(** *** Forward pass in exact arithmetic

    The layers over the reals: what the graph computes when rounding,
    overflow and NaN play no part.  [Float32] below gives the same pass
    in the precision the code computes in. *)

Open Scope R_scope.

Abbreviation vec := (list R).

(** One sample's tensor: rank 1, or rank 2 as a sequence of rows. *)
Inductive tensor := T1 (v : vec) | T2 (m : list vec).

Definition has_shape (t : tensor) (sh : list nat) : bool :=
  match t, sh with
  | T1 v, [n] => Nat.eqb (length v) n
  | T2 m, [r; c] =>
      Nat.eqb (length m) r && forallb (fun row => Nat.eqb (length row) c) m
  | _, _ => false
  end.

Definition sum (v : vec) : R := fold_right Rplus 0 v.

(** [x . kernel[:, j]] for the kernel column given as [k]. *)
Definition dot (x : vec) (k : nat -> R) : R :=
  sum (imap (fun i xi => xi * k i) x).

Definition activate (a : activation) (z : R) : R :=
  match a with
  | linear => z
  | tanh_act => tanh z
  end.

Definition dense (units : nat) (a : activation)
    (kernel : nat -> nat -> R) (bias : nat -> R) (x : vec) : vec :=
  (fun j => activate a (dot x (fun i => kernel i j) + bias j)) <$> seq 0 units.

(** Keras' default negative slope. *)
Definition leaky_alpha : R := 3 / 10.

Definition leaky_relu (z : R) : R :=
  if Rle_dec 0 z then z else leaky_alpha * z.

Definition softmax (v : vec) : vec :=
  (fun z => exp z / sum (exp <$> v)) <$> v.

(** Element-wise product of two vectors: equally long, or one of them
    of length one and broadcast; [None] on any other pair of lengths,
    which Keras rejects when the graph is built. *)
Definition multiply2 (a b : vec) : option vec :=
  if Nat.eqb (length a) (length b) then Some (zip_with Rmult a b)
  else
    match a, b with
    | [x], _ => Some (Rmult x <$> b)
    | _, [y] => Some ((fun x => x * y) <$> a)
    | _, _ => None
    end.

Fixpoint multiply (vs : list vec) : option vec :=
  match vs with
  | [] => None
  | [v] => Some v
  | v :: rest => rest' ← multiply rest; multiply2 v rest'
  end.

Definition as_vec (t : tensor) : option vec :=
  match t with T1 v => Some v | T2 _ => None end.

Definition as_seq (t : tensor) : option (list vec) :=
  match t with T2 m => Some m | T1 _ => None end.

Definition map_last (f : vec -> vec) (t : tensor) : tensor :=
  match t with
  | T1 v => T1 (f v)
  | T2 m => T2 (f <$> m)
  end.

(** [Concatenate] and [Multiply] are given on vectors: the operands the
    graph of [build_model] hands them are the two recurrent summaries, the
    hands features, the policy logits and the mask vector. *)

(** What the graph does not fix: the learned dense parameters (indexed by
    the [Dense] node they belong to), the sequence summary computed by a
    bidirectional recurrent node, and the multiplier dropout applies to
    each unit (1 at inference; 0 or 1/(1-rate) while training). *)
Record params := {
  kernel : layer -> nat -> nat -> R;
  bias : layer -> nat -> R;
  summary : layer -> list vec -> vec;
  keep : layer -> nat -> R
}.

Section Eval.
Variable p : params.
Variable feed : string -> option tensor.

Fixpoint eval (l : layer) : option tensor :=
  match l with
  | Input name sh =>
      t ← feed name;
      if has_shape t sh then Some t else None
  | Dense units a _ _ x =>
      t ← eval x;
      Some (map_last (dense units a (kernel p l) (bias p l)) t)
  | LeakyReLU x =>
      t ← eval x; Some (map_last (fmap leaky_relu) t)
  | Bidirectional _ x =>
      t ← eval x; m ← as_seq t; Some (T1 (summary p l m))
  | Concatenate xs =>
      vs ← mapM (fun x => t ← eval x; as_vec t) xs;
      Some (T1 (concat vs))
  | Dropout _ x =>
      t ← eval x; Some (map_last (imap (fun i z => z * keep p l i)) t)
  | Multiply xs =>
      vs ← mapM (fun x => t ← eval x; as_vec t) xs;
      T1 <$> multiply vs
  | Softmax _ x =>
      t ← eval x; Some (map_last softmax t)
  end.
End Eval.

Definition policy_output (m : Model) : option layer := outputs m !! 0%nat.
Definition value_output (m : Model) : option layer := outputs m !! 1%nat.

End Net.

(** ** Exceptions *)

Module Py.

Abbreviation path := (list string).

(** The external collaborators whose failures the script lets through. *)
Inductive external :=
| keras_load_weights | keras_fit | keras_save | trt_convert | trt_save
| keras_save_weights | keras_plot_model | pyplot_savefig.

Inductive exn :=
| KeyError (key : string)
| TypeError
| ValueError
| IndexError
| FileNotFoundError (p : path)
| NotADirectoryError (p : path)
| IsADirectoryError (p : path)
| FileExistsError (p : path)
| ExternalError (who : external)
(** not a Python exception: the fuel of a loop model ran out *)
| OutOfFuel.

Definition result (A : Type) : Type := exn + A.

End Py.

(** ** Arrays

    An [ndarray] is its shape and its elements in row-major order; a
    well-formed array has [size a = product (shape a)]. *)

Module Numpy.
Import Py.

Record ndarray := { shape : list nat; data : list R }.

Definition product (sh : list nat) : nat := foldr Nat.mul 1%nat sh.

Definition size (a : ndarray) : nat := length (data a).

Definition well_formed (a : ndarray) : Prop := size a = product (shape a).

(** [len(a)]: the first dimension; a 0-d array has no length. *)
Definition len (a : ndarray) : result nat :=
  match shape a with
  | [] => inl TypeError
  | n :: _ => inr n
  end.

(** [a.reshape(newshape)]: same elements, new shape, or [ValueError]
    when the element counts differ. *)
Definition reshape (a : ndarray) (newshape : list nat) : result ndarray :=
  if Nat.eqb (size a) (product newshape)
  then inr {| shape := newshape; data := data a |}
  else inl ValueError.

(** [a[0]]: the first slice along the first axis. *)
Definition first (a : ndarray) : result ndarray :=
  match shape a with
  | [] | O :: _ => inl IndexError
  | S _ :: sh => inr {| shape := sh; data := take (product sh) (data a) |}
  end.

(** [d[key]] on a dictionary or a loaded archive. *)
Definition getitem {V} (d : gmap string V) (key : string) : result V :=
  match d !! key with
  | Some v => inr v
  | None => inl (KeyError key)
  end.

(** [t[0]] on a shape tuple. *)
Definition tuple0 (sh : list nat) : result nat :=
  match sh with
  | [] => inl IndexError
  | n :: _ => inr n
  end.

End Numpy.

(** ** File system, event log and the script's monad *)

Module Sys.
Import Py Numpy.

Record figure := {
  series : list (string * list nat * list R);
  xticks : list nat;
  title : string;
  xlabel : string;
  ylabel : string
}.

Inductive content :=
| Npz (arrays : gmap string ndarray)
| Blob (bytes : string).

Inductive entry := Dir | File (c : content).

Inductive callback :=
| EarlyStopping (monitor : string) (min_delta : Q) (patience : nat)
                (restore_best_weights : bool)
| TerminateOnNaN.

Record FitCall := {
  fit_x : gmap string ndarray;
  fit_y : gmap string ndarray;
  fit_batch_size : Z;
  fit_epochs : nat;
  fit_validation_split : Q;
  fit_callbacks : list callback
}.

(** Calls into the frameworks, in the order the script makes them. *)
Inductive call :=
| CallLoadWeights (p : path)
| CallFit (c : FitCall)
| CallModelSave (p : path)
| CallConvert (input_saved_model_dir : path) (precision_mode : string)
| CallConverterSave (p : path)
| CallSaveWeights (p : path)
| CallPlotModel (to_file : path)
| CallSavefig (p : path).

Inductive event :=
| Called (c : call)
| Removed (p : path)
| Created (p : path) (e : entry).

(** Run a computation on a file system: its result or exception, the
    file system it leaves and the events it produced. *)
Record outcome (A : Type) := Outcome {
  res : result A;
  fs_out : gmap path entry;
  log : list event
}.
Arguments Outcome {A}.
Arguments res {A}.
Arguments fs_out {A}.
Arguments log {A}.

Definition M (A : Type) : Type := gmap path entry -> outcome A.

Definition ret {A} (a : A) : M A := fun fs => Outcome (inr a) fs [].

Definition raise {A} (e : exn) : M A := fun fs => Outcome (inl e) fs [].

Definition bind {A B} (m : M A) (k : A -> M B) : M B := fun fs =>
  let o := m fs in
  match res o with
  | inl e => Outcome (inl e) (fs_out o) (log o)
  | inr a =>
      let o' := k a (fs_out o) in
      Outcome (res o') (fs_out o') (log o ++ log o')
  end.

#[export] Instance M_ret : MRet M := @ret.
#[export] Instance M_bind : MBind M := fun A B k m => bind m k.

Definition lift {A} (r : result A) : M A :=
  match r with
  | inl e => raise e
  | inr a => ret a
  end.

Definition emit (e : event) : M unit := fun fs => Outcome (inr tt) fs [e].

(** The root directory always exists. *)
Definition stat (p : path) : M (option entry) := fun fs =>
  Outcome (inr (match p with [] => Some Dir | _ => fs !! p end)) fs [].

Definition create (p : path) (e : entry) : M unit := fun fs =>
  Outcome (inr tt) (<[p := e]> fs) [Created p e].

Definition remove_tree (p : path) : M unit := fun fs =>
  Outcome (inr tt) (filter (fun kv => ~ p `prefix_of` kv.1) fs) [Removed p].

(** [os.path.exists] *)
Definition path_exists (p : path) : M bool :=
  e ← stat p; mret (bool_decide (is_Some e)).

(** [shutil.rmtree] *)
Definition rmtree (p : path) : M unit :=
  e ← stat p;
  match e with
  | None => raise (FileNotFoundError p)
  | Some (File _) => raise (NotADirectoryError p)
  | Some Dir => remove_tree p
  end.

(** [os.makedirs(p, exist_ok=True)], walking down from [base]. *)
Fixpoint makedirs_from (base rest : path) : M unit :=
  match rest with
  | [] => mret tt
  | c :: rest' =>
      let d := base ++ [c] in
      e ← stat d;
      match e with
      | None => create d Dir;; makedirs_from d rest'
      | Some Dir => makedirs_from d rest'
      | Some (File _) => raise (FileExistsError d)
      end
  end.

Definition makedirs (p : path) : M unit := makedirs_from [] p.

Definition parent (p : path) : path := removelast p.

(** Create or truncate a regular file; its directory must exist. *)
Definition write_file (p : path) (c : content) : M unit :=
  d ← stat (parent p);
  match d with
  | None => raise (FileNotFoundError p)
  | Some (File _) => raise (NotADirectoryError p)
  | Some Dir =>
      e ← stat p;
      match e with
      | Some Dir => raise (IsADirectoryError p)
      | _ => create p (File c)
      end
  end.

(** Write a directory artifact: [files] are relative to [root]. *)
Fixpoint write_tree (root : path) (files : list (path * content)) : M unit :=
  match files with
  | [] => mret tt
  | (rel, c) :: rest =>
      makedirs (parent (root ++ rel));;
      write_file (root ++ rel) c;;
      write_tree root rest
  end.

(** [np.load] of an [.npz] archive. *)
Definition np_load (p : path) : M (gmap string ndarray) :=
  e ← stat p;
  match e with
  | None => raise (FileNotFoundError p)
  | Some Dir => raise (IsADirectoryError p)
  | Some (File (Blob _)) => raise ValueError
  | Some (File (Npz arrays)) => mret arrays
  end.

End Sys.

(** ** The training script

    Logging, printing of the model summary and the process-wide TensorFlow
    session are not modelled: none of them touches the file system or
    the calls below.  Paths are lists of components; [os.path.join] is
    concatenation. *)

Module Train.
Import Constants Py Numpy Sys.

Record Args := {
  input : path;
  output : path;
  validation_split : Q;
  initial_weights : option path
}.

(** The frameworks the script drives, as functions of what they are
    given; [None] is a raised exception.  [W] is a model's trained state
    and [T] a converted graph.  [load_weights] is handed the path as
    the script passes it on, with the file system to look it up in:
    what lies at that path (an HDF5 file, a checkpoint prefix, a saved
    model directory) is for Keras to decide. *)
Record Externals (W T : Type) := {
  initial_state : Net.Model -> W;
  load_weights : Net.Model -> W -> gmap path entry -> path -> option W;
  fit : Net.Model -> W -> FitCall -> option (gmap string (list R) * W);
  saved_model : Net.Model -> W -> option (list (path * content));
  convert : gmap path entry -> string -> option T;
  converted_model : T -> option (list (path * content));
  weights_file : Net.Model -> W -> option content;
  model_diagram : Net.Model -> option content;
  render : figure -> option content
}.
Arguments initial_state {W T}.
Arguments load_weights {W T}.
Arguments fit {W T}.
Arguments saved_model {W T}.
Arguments convert {W T}.
Arguments converted_model {W T}.
Arguments weights_file {W T}.
Arguments model_diagram {W T}.
Arguments render {W T}.

Definition external {A} (who : Py.external) (r : option A) : M A :=
  match r with
  | Some a => mret a
  | None => raise (ExternalError who)
  end.

Definition read_tree (root : path) : M (gmap path entry) := fun fs =>
  Outcome (inr (filter (fun kv => root `prefix_of` kv.1) fs)) fs [].

Definition load_data (filename : path)
    : M (gmap string ndarray * gmap string ndarray) :=
  batch ← np_load filename;
  Y_value_raw ← lift (getitem batch "Y_value");
  n_samples ← lift (len Y_value_raw);
  a ← lift (getitem batch "X_history");
  X_history ← lift (reshape a [n_samples; MAX_HISTORY; N_ACTION_FEATURES]);
  a ← lift (getitem batch "X_hands");
  X_hands ← lift (reshape a [n_samples; 3 * NUM_CARDS_IN_DECK]%nat);
  a ← lift (getitem batch "X_drawpile");
  X_drawpile ← lift (reshape a [n_samples; MAX_CARDS_IN_DRAW_PILE; NUM_CARD_TYPES]);
  a ← lift (getitem batch "X_output_mask");
  X_output_mask ← lift (reshape a [n_samples; N_OUTPUTS]);
  let X : gmap string ndarray :=
    <["history" := X_history]> (<["hands" := X_hands]>
      (<["drawpile" := X_drawpile]> (<["output_mask" := X_output_mask]> ∅))) in
  a ← lift (getitem batch "Y_policy");
  Y_policy ← lift (reshape a [n_samples; N_OUTPUTS]);
  a ← lift (getitem batch "Y_value");
  Y_value ← lift (reshape a [n_samples; 1%nat]);
  let Y : gmap string ndarray :=
    <["policy" := Y_policy]> (<["value" := Y_value]> ∅) in
  mret (X, Y).

Section Driver.
Context {W T : Type}.
Variable ext : Externals W T.

Definition epochs_of (l : list R) : list nat :=
  (fun i => i + 1)%nat <$> seq 0 (length l).

Definition plot_metrics (history : gmap string (list R)) (output : path)
    : M unit :=
  loss ← lift (getitem history "loss");
  val_loss ← lift (getitem history "val_loss");
  let fig :=
    {| series := [("loss", epochs_of loss, loss);
                  ("val_loss", epochs_of val_loss, val_loss)];
       xticks := epochs_of val_loss;
       title := "Training Loss";
       xlabel := "Epoch";
       ylabel := "MSE" |} in
  emit (Called (CallSavefig output));;
  c ← external pyplot_savefig (render ext fig);
  write_file output c.

(** [<array>[0].shape] *)
Definition sample_shape (d : gmap string ndarray) (key : string)
    : M (list nat) :=
  a ← lift (getitem d key);
  s ← lift (first a);
  mret (shape s).

Definition main (fuel : nat) (args : Args) : M unit :=
  '(X, y) ← load_data (input args);
  history_shape ← sample_shape X "history";
  hands_shape ← sample_shape X "hands";
  drawpile_shape ← sample_shape X "drawpile";
  output_mask_shape ← sample_shape X "output_mask";
  policy_row ← sample_shape y "policy";
  policy_shape ← lift (tuple0 policy_row);
  let model := Net.build_model history_shape hands_shape drawpile_shape
                               output_mask_shape policy_shape in
  state ←
    match initial_weights args with
    | Some p =>
        emit (Called (CallLoadWeights p));;
        tree ← read_tree [];
        external keras_load_weights
          (load_weights ext model (initial_state ext model) tree p)
    | None => mret (initial_state ext model)
    end;
  (* Use batches in largest power of two such that:
       1. At least 128 batches per epoch.
       2. Minimum batch size 32, max 2048. *)
  a ← lift (getitem y "value");
  n_samples ← lift (len a);
  batch_size ←
    match BatchSize.select fuel (Z.of_nat n_samples) with
    | Some b => mret b
    | None => raise OutOfFuel
    end;
  let fit_call :=
    {| fit_x := X; fit_y := y; fit_batch_size := batch_size;
       fit_epochs := 100; fit_validation_split := 1 # 10;
       fit_callbacks :=
         [EarlyStopping "val_loss" (1 # 10000) 5 true; TerminateOnNaN] |} in
  emit (Called (CallFit fit_call));;
  '(history, trained) ← external keras_fit (fit ext model state fit_call);

  ex ← path_exists (output args);
  (if ex : bool then rmtree (output args) else mret tt);;

  let original := output args ++ ["original"] in
  emit (Called (CallModelSave original));;
  files ← external keras_save (saved_model ext model trained);
  makedirs original;;
  write_tree original files;;
  emit (Called (CallConvert original "FP16"));;
  tree ← read_tree original;
  converted ← external trt_convert (convert ext tree "FP16");
  emit (Called (CallConverterSave (output args)));;
  files ← external trt_save (converted_model ext converted);
  makedirs (output args);;
  write_tree (output args) files;;
  (* Save keras model weights for re-initialization on next iteration. *)
  emit (Called (CallSaveWeights (output args ++ ["weights.h5"])));;
  c ← external keras_save_weights (weights_file ext model trained);
  write_file (output args ++ ["weights.h5"]) c;;
  emit (Called (CallPlotModel (output args ++ ["model.pdf"])));;
  c ← external keras_plot_model (model_diagram ext model);
  write_file (output args ++ ["model.pdf"]) c;;
  plot_metrics history (output args ++ ["metrics.pdf"]).

End Driver.

End Train.

(** ** Assertions on computations

    An assertion relates the file system a computation starts from, the
    one it leaves, the events it logs and the exception it raises, if
    any.  [sat Q m] says that every run of [m] satisfies [Q]. *)

Module Logic.
Import Py Sys Train.

Definition assertion : Type :=
  gmap path entry -> gmap path entry -> list event -> option exn -> Prop.

Definition raised {A} (r : result A) : option exn :=
  match r with
  | inl e => Some e
  | inr _ => None
  end.

Definition sat {A} (Q : assertion) (m : M A) : Prop :=
  forall fs, Q fs (fs_out (m fs)) (log (m fs)) (raised (res (m fs))).

(** Assertions that hold of doing nothing and compose along [bind]. *)
Class Sequential (Q : assertion) : Prop := {
  seq_skip : forall fs, Q fs fs [] None;
  seq_then : forall fs0 fs1 fs2 l1 l2 r,
    Q fs0 fs1 l1 None -> Q fs1 fs2 l2 r -> Q fs0 fs2 (l1 ++ l2) r
}.

(** What an assertion allows the primitive actions to do. *)
Definition may_raise (Q : assertion) (e : exn) : Prop :=
  forall fs, Q fs fs [] (Some e).

Definition may_emit (Q : assertion) (ev : event) : Prop :=
  forall fs, Q fs fs [ev] None.

Definition may_create (Q : assertion) (p : path) (e : entry) : Prop :=
  forall fs, Q fs (<[p := e]> fs) [Created p e] None.

Definition may_remove (Q : assertion) (p : path) : Prop :=
  forall fs,
    Q fs (filter (fun kv => ~ p `prefix_of` kv.1) fs) [Removed p] None.

Definition convert_error : exn := ExternalError trt_convert.

(** The exceptions of the file-system, array and dictionary operations. *)
Definition builtin (e : exn) : Prop :=
  match e with
  | ExternalError _ | OutOfFuel => False
  | _ => True
  end.

(** Assertions that let every built-in exception through. *)
Class Lenient (Q : assertion) : Prop :=
  lenient : forall e, builtin e -> may_raise Q e.

Definition fuel_left (e : exn) : Prop := e <> OutOfFuel.

(** leaves the file system as it found it *)
Definition readonly : assertion := fun fs fs' _ _ => fs' = fs.

(** logs only events satisfying [P] *)
Definition logs (P : event -> Prop) : assertion := fun _ _ l _ => Forall P l.

(** raises only exceptions satisfying [E] *)
Definition raises (E : exn -> Prop) : assertion :=
  fun _ _ _ r => forall e, r = Some e -> E e.

(** every entry present afterwards was present before or was created,
    with that content, by the computation *)
Definition tracks : assertion := fun fs fs' l _ =>
  forall p e, fs' !! p = Some e -> fs !! p = Some e \/ Created p e ∈ l.

(** changes the file system at paths in [S] only *)
Definition touches (S : path -> Prop) : assertion := fun fs fs' _ _ =>
  forall p, ~ S p -> fs' !! p = fs !! p.

(** Every entry lies in a directory. *)
Definition wf_fsb (fs : gmap path entry) : bool :=
  forallb (fun kv : path * entry =>
             match parent kv.1 with
             | [] => true
             | q => match fs !! q with Some Dir => true | _ => false end
             end)
          (map_to_list fs).

Definition wf_fs (fs : gmap path entry) : Prop := wf_fsb fs = true.

(** Nothing at or below [root]. *)
Definition cleared (root : path) (fs : gmap path entry) : Prop :=
  forall p, root `prefix_of` p -> fs !! p = None.

Definition is_created (e : event) : Prop :=
  match e with Created _ _ => True | _ => False end.

Definition is_removed (e : event) : Prop :=
  match e with Removed _ => True | _ => False end.

(** The calls that write the weights-only artifact and the plots. *)
Definition is_late (e : event) : Prop :=
  match e with
  | Called (CallSaveWeights _) | Called (CallPlotModel _)
  | Called (CallSavefig _) => True
  | _ => False
  end.

(** The exceptions of the conversion and of the converter's save. *)
Definition transform_error (e : exn) : Prop :=
  e = ExternalError trt_convert \/ e = ExternalError trt_save.

(** The fit call holds out the fixed fraction 0.1. *)
Definition fit_split_fixed (e : event) : Prop :=
  match e with
  | Called (CallFit c) => fit_validation_split c = 1 # 10
  | _ => True
  end.

(** The events of writing [files] below [root]. *)
Definition created (root : path) (files : list (path * content))
    : list event :=
  (fun rc => Created (root ++ rc.1) (File rc.2)) <$> files.

(** [l] passes the markers of [pat] in order; the stretch before each
    marker holds the events required there, and the stretch after the
    last marker holds those of [seg]. *)
Fixpoint reached (pat : list (list event * event)) (seg : list event)
    (l : list event) : Prop :=
  match pat with
  | [] => Forall (fun e => e ∈ l) seg
  | (req, mark) :: rest =>
      exists a d,
        l = a ++ mark :: d /\ Forall (fun e => e ∈ a) req /\ reached rest seg d
  end.

(** *** Properties of a whole run of the driver *)

(** A run creates nothing before the point at which [out] is emptied
    and removes nothing after it; once it is past that point, [out] was
    removed if it existed, and what [out] holds was created after. *)
Definition replaces (out : path) (m : M unit) : Prop :=
  forall fs, wf_fs fs ->
    exists l1 l2,
      log (m fs) = l1 ++ l2 /\
      Forall (fun e => ~ is_created e) l1 /\
      Forall (fun e => ~ is_removed e) l2 /\
      (res (m fs) = inr tt \/ l2 <> [] ->
       (out = [] \/ is_Some (fs !! out) -> Removed out ∈ l1) /\
       forall p e, out `prefix_of` p -> fs_out (m fs) !! p = Some e ->
                   Created p e ∈ l2).

(** In [l] the export is complete: the full model was saved under
    [original] after the call of [model.save], the conversion was
    called and returned a graph, and after the call of the converter's
    save that graph's files were written under [out]. *)
Definition exported {W T : Type} (ext : Externals W T) (out : path)
    (l : list event) : Prop :=
  exists saved tree t files,
    (exists model trained, saved_model ext model trained = Some saved) /\
    convert ext tree "FP16" = Some t /\
    converted_model ext t = Some files /\
    reached
      [([], Called (CallModelSave (out ++ ["original"])));
       (created (out ++ ["original"]) saved,
        Called (CallConvert (out ++ ["original"]) "FP16"));
       ([], Called (CallConverterSave out))]
      (created out files) l.

(** Continuing a log that satisfies [S], whatever has been logged when
    a late call is made satisfies [I]. *)
Definition stage {A : Type} (S I : list event -> Prop) (m : M A) : Prop :=
  forall fs pre, S pre ->
    forall l1 e l2, log (m fs) = l1 ++ e :: l2 -> is_late e -> I (pre ++ l1).

(** A run stopped by a failure of the transform has logged the events
    [need] and has made no late call. *)
Definition stopped {A : Type} (need : list event) (m : M A) : Prop :=
  forall fs e, res (m fs) = inl e -> transform_error e ->
    Forall (fun x => x ∈ log (m fs)) need /\
    Forall (fun x => ~ is_late x) (log (m fs)).

(** A run that finds nothing at [w] and makes no late call leaves
    nothing at [w]. *)
Definition unproduced {A : Type} (w : path) (m : M A) : Prop :=
  forall fs, fs !! w = None ->
    Forall (fun x => ~ is_late x) (log (m fs)) -> fs_out (m fs) !! w = None.

(** The same of a run on a well-formed file system that has logged
    [mark]. *)
Definition unproduced_after {A : Type} (mark : event) (w : path) (m : M A)
    : Prop :=
  forall fs, wf_fs fs -> mark ∈ log (m fs) ->
    Forall (fun x => ~ is_late x) (log (m fs)) -> fs_out (m fs) !! w = None.

End Logic.

(** ** The forward pass in single precision

    Keras computes in float32.  Numbers are IEEE 754 binary32 values,
    given as [spec_float]s with the correctly rounded addition and
    multiplication of the Standard Library at precision 24 and maximal
    exponent 128: a sum or product with a NaN operand is NaN, and so are
    [inf - inf] and [0 * inf].  The graph and its traversal are those of
    [Net.eval]. *)

Module Float32.
Import Net.

Abbreviation f32 := spec_float.

Definition prec : Z := 24.
Definition emax : Z := 128.

Definition add : f32 -> f32 -> f32 := SFadd prec emax.
Definition mul : f32 -> f32 -> f32 := SFmul prec emax.

Definition zero : f32 := S754_zero false.
Definition one : f32 := S754_finite false 8388608 (-23).

Definition is_nan (x : f32) : bool :=
  match x with S754_nan => true | _ => false end.

(** [-1 <= x <= 1]; every comparison with NaN is false. *)
Definition in_unit_interval (x : f32) : bool :=
  SFleb (SFopp one) x && SFleb x one.

(** What the numeric kernels fix and the graph does not: the hyperbolic
    tangent of a finite non-zero number, and the softmax of a vector. *)
Record numerics := {
  tanh_finite : f32 -> f32;
  softmax_op : list f32 -> list f32
}.

(** [tanh] on the special values: NaN for NaN, the limits at the
    infinities, and the signed zero for a zero. *)
Definition tanh32 (lib : numerics) (x : f32) : f32 :=
  match x with
  | S754_nan => S754_nan
  | S754_infinity s => if s then SFopp one else one
  | S754_zero s => S754_zero s
  | S754_finite _ _ _ => tanh_finite lib x
  end.

Inductive tensor32 := V1 (v : list f32) | V2 (m : list (list f32)).

Definition has_shape32 (t : tensor32) (sh : list nat) : bool :=
  match t, sh with
  | V1 v, [n] => Nat.eqb (length v) n
  | V2 m, [r; c] =>
      Nat.eqb (length m) r && forallb (fun row => Nat.eqb (length row) c) m
  | _, _ => false
  end.

(** [x . kernel[:, j]], accumulated from the first term on.  The
    source does not fix the order in which a kernel adds the terms up;
    whether the sum is NaN when a term is does not depend on it. *)
Definition dot32 (x : list f32) (k : nat -> f32) : f32 :=
  foldl add zero (imap (fun i xi => mul xi (k i)) x).

Definition activate32 (lib : numerics) (a : activation) (z : f32) : f32 :=
  match a with
  | linear => z
  | tanh_act => tanh32 lib z
  end.

Definition dense32 (lib : numerics) (units : nat) (a : activation)
    (kernel : nat -> nat -> f32) (bias : nat -> f32) (x : list f32)
    : list f32 :=
  (fun j => activate32 lib a (add (dot32 x (fun i => kernel i j)) (bias j)))
    <$> seq 0 units.

(** Keras' default negative slope 0.3, rounded to binary32. *)
Definition leaky_alpha32 : f32 := S754_finite false 10066330 (-25).

Definition leaky_relu32 (z : f32) : f32 :=
  if SFltb zero z then z else mul leaky_alpha32 z.

Definition multiply2_32 (a b : list f32) : option (list f32) :=
  if Nat.eqb (length a) (length b) then Some (zip_with mul a b)
  else
    match a, b with
    | [x], _ => Some (mul x <$> b)
    | _, [y] => Some ((fun x => mul x y) <$> a)
    | _, _ => None
    end.

Fixpoint multiply32 (vs : list (list f32)) : option (list f32) :=
  match vs with
  | [] => None
  | [v] => Some v
  | v :: rest => rest' ← multiply32 rest; multiply2_32 v rest'
  end.

Definition as_vec32 (t : tensor32) : option (list f32) :=
  match t with V1 v => Some v | V2 _ => None end.

Definition as_seq32 (t : tensor32) : option (list (list f32)) :=
  match t with V2 m => Some m | V1 _ => None end.

Definition map_last32 (f : list f32 -> list f32) (t : tensor32) : tensor32 :=
  match t with
  | V1 v => V1 (f v)
  | V2 m => V2 (f <$> m)
  end.

(** The learned dense parameters, the summary a bidirectional recurrent
    node computes, and what dropout does to each unit: [Some s]
    multiplies it by [s] (1 at inference), [None] replaces it by zero. *)
Record params32 := {
  kernel32 : layer -> nat -> nat -> f32;
  bias32 : layer -> nat -> f32;
  summary32 : layer -> list (list f32) -> list f32;
  keep32 : layer -> nat -> option f32
}.

Definition dropout32 (k : nat -> option f32) (v : list f32) : list f32 :=
  imap (fun i z => match k i with Some s => mul z s | None => zero end) v.

Section Eval.
Variable lib : numerics.
Variable p : params32.
Variable feed : string -> option tensor32.

Fixpoint eval32 (l : layer) : option tensor32 :=
  match l with
  | Input name sh =>
      t ← feed name;
      if has_shape32 t sh then Some t else None
  | Dense units a _ _ x =>
      t ← eval32 x;
      Some (map_last32 (dense32 lib units a (kernel32 p l) (bias32 p l)) t)
  | LeakyReLU x =>
      t ← eval32 x; Some (map_last32 (fmap leaky_relu32) t)
  | Bidirectional _ x =>
      t ← eval32 x; m ← as_seq32 t; Some (V1 (summary32 p l m))
  | Concatenate xs =>
      vs ← mapM (fun x => t ← eval32 x; as_vec32 t) xs;
      Some (V1 (concat vs))
  | Dropout _ x =>
      t ← eval32 x; Some (map_last32 (dropout32 (keep32 p l)) t)
  | Multiply xs =>
      vs ← mapM (fun x => t ← eval32 x; as_vec32 t) xs;
      V1 <$> multiply32 vs
  | Softmax _ x =>
      t ← eval32 x; Some (map_last32 (softmax_op lib) t)
  end.
End Eval.

End Float32.

(** ** Concrete inputs

    The model the driver builds, what "masked" asks of a policy vector,
    and one small run of the whole script. *)

Module Scenario.
Import Constants Net Py Numpy Sys Train.
Open Scope R_scope.

(** The model [main] builds: the shapes are those [load_data] reshapes
    the stored arrays to. *)
Definition main_model : Model :=
  build_model [MAX_HISTORY; N_ACTION_FEATURES] [3 * NUM_CARDS_IN_DECK]%nat
              [MAX_CARDS_IN_DRAW_PILE; NUM_CARD_TYPES] [N_OUTPUTS] N_OUTPUTS.

(** What "masked" asks of a policy vector: no mass where the mask is
    zero, and total mass one on the remaining positions. *)
Definition unmasked_mass (mask out : vec) : R :=
  sum (zip_with (fun m q => if Req_dec_T m 0 then 0 else q) mask out).

Definition masked_distribution (mask out : vec) : Prop :=
  (forall i, mask !! i = Some 0 -> out !! i = Some 0) /\
  unmasked_mass mask out = 1.

(** A network whose dense parameters are all zero, fed an all-zero state
    and a mask that allows the first action only. *)
Definition zero_params : params :=
  {| kernel := fun _ _ _ => 0; bias := fun _ _ => 0;
     summary := fun _ _ => []; keep := fun _ _ => 1 |}.

Definition first_only_mask : vec := 1 :: replicate 30 0.

Definition zero_state_feed (name : string) : option tensor :=
  if String.eqb name "history" then
    Some (T2 (replicate MAX_HISTORY (replicate N_ACTION_FEATURES 0)))
  else if String.eqb name "hands" then
    Some (T1 (replicate (3 * NUM_CARDS_IN_DECK) 0))
  else if String.eqb name "drawpile" then
    Some (T2 (replicate MAX_CARDS_IN_DRAW_PILE (replicate NUM_CARD_TYPES 0)))
  else if String.eqb name "output_mask" then Some (T1 first_only_mask)
  else None.

(** A stored batch with one sample, all zeros. *)
Definition zeros (n : nat) : ndarray := {| shape := [n]; data := replicate n 0 |}.

Definition one_sample : gmap string ndarray :=
  <["X_history" := zeros 928]> (<["X_hands" := zeros 69]>
    (<["X_drawpile" := zeros 143]> (<["X_output_mask" := zeros 31]>
      (<["Y_policy" := zeros 31]> (<["Y_value" := zeros 1]> ∅))))).

(** The same batch with one element missing from the hands array. *)
Definition short_hands : gmap string ndarray :=
  <["X_hands" := zeros 68]> one_sample.

(** An input archive and an output directory left by an earlier run. *)
Definition demo_fs : gmap path entry :=
  <[["data.npz"] := File (Npz one_sample)]>
    (<[["out"] := Dir]>
      (<[["out"; "weights.h5"] := File (Blob "stale")]> ∅)).

Definition demo_args : Args :=
  {| input := ["data.npz"]; output := ["out"];
     validation_split := 1 # 2; initial_weights := None |}.

(** Collaborators that always succeed, except that the converter fails
    when [convert_ok] is [false]. *)
Definition demo_ext (convert_ok : bool) : Externals unit unit :=
  {| initial_state := fun _ => tt;
     load_weights := fun _ _ _ _ => Some tt;
     fit := fun _ _ _ =>
       Some (<["loss" := [1]]> (<["val_loss" := [1]]> ∅), tt);
     saved_model := fun _ _ => Some [(["saved_model.pb"], Blob "graph")];
     convert := fun _ _ => if convert_ok then Some tt else None;
     converted_model := fun _ => Some [(["saved_model.pb"], Blob "trt")];
     weights_file := fun _ _ => Some (Blob "weights");
     model_diagram := fun _ => Some (Blob "diagram");
     render := fun _ => Some (Blob "plot") |}.

End Scenario.

(** ** Further assertions and inputs *)

Module More.
Import Constants Net Py Numpy Sys Train Logic Scenario.

(** *** The network *)

(** Feed [t] for the input [name] and leave the other inputs alone. *)
Definition with_input (name : string) (t : tensor)
    (feed : string -> option tensor) : string -> option tensor :=
  fun n => if String.eqb n name then Some t else feed n.

(** The mask that allows every action. *)
Definition all_ones_mask (n : nat) : list R := replicate n 1%R.

(** *** The network in single precision *)

(** Stand-ins for the numeric kernels: a clamp to [-1, 1] for [tanh]
    and the identity for softmax. *)
Definition clamp (x : Float32.f32) : Float32.f32 :=
  if Float32.in_unit_interval x then x
  else
    match x with
    | S754_finite true _ _ => SFopp Float32.one
    | _ => Float32.one
    end.

Definition crude_numerics : Float32.numerics :=
  {| Float32.tanh_finite := clamp; Float32.softmax_op := fun v => v |}.

Definition zero_params32 : Float32.params32 :=
  {| Float32.kernel32 := fun _ _ _ => Float32.zero;
     Float32.bias32 := fun _ _ => Float32.zero;
     Float32.summary32 := fun l _ =>
       match l with
       | Bidirectional (GRU units _) _ => replicate (2 * units) Float32.zero
       | _ => []
       end;
     Float32.keep32 := fun _ _ => Some Float32.one |}.

(** An all-zero state whose hands vector holds NaN. *)
Definition nan_hands_feed (name : string) : option Float32.tensor32 :=
  if String.eqb name "history" then
    Some (Float32.V2 (replicate MAX_HISTORY
                        (replicate N_ACTION_FEATURES Float32.zero)))
  else if String.eqb name "hands" then
    Some (Float32.V1 (replicate (3 * NUM_CARDS_IN_DECK) S754_nan))
  else if String.eqb name "drawpile" then
    Some (Float32.V2 (replicate MAX_CARDS_IN_DRAW_PILE
                        (replicate NUM_CARD_TYPES Float32.zero)))
  else None.

(** *** The loader and the driver *)

(** What [load_data] returns on the archive [data.npz] of [fs]; two
    empty dictionaries stand in when it raises. *)
Definition loaded (fs : gmap path entry)
    : gmap string ndarray * gmap string ndarray :=
  match res (load_data ["data.npz"] fs) with
  | inr XY => XY
  | inl _ => (∅, ∅)
  end.

(** An archive with no sample at all. *)
Definition no_sample : gmap string ndarray :=
  <["X_history" := zeros 0]> (<["X_hands" := zeros 0]>
    (<["X_drawpile" := zeros 0]> (<["X_output_mask" := zeros 0]>
      (<["Y_policy" := zeros 0]> (<["Y_value" := zeros 0]> ∅))))).

Definition empty_fs : gmap path entry :=
  <[["data.npz"] := File (Npz no_sample)]> ∅.

(** Every fit call logged satisfies [P]. *)
Definition fit_calls (P : FitCall -> Prop) (e : event) : Prop :=
  match e with
  | Called (CallFit c) => P c
  | _ => True
  end.

(** What [main] passes to [fit], given the dictionaries it loaded. *)
Definition fit_as_scripted (fuel : nat) (X y : gmap string ndarray)
    (c : FitCall) : Prop :=
  fit_x c = X /\ fit_y c = y /\ fit_epochs c = 100%nat /\
  fit_callbacks c =
    [EarlyStopping "val_loss" (1 # 10000) 5 true; TerminateOnNaN] /\
  exists a n,
    y !! "value" = Some a /\ len a = inr n /\
    BatchSize.select fuel (Z.of_nat n) = Some (fit_batch_size c).

(** The fit call of the small run of [Scenario]. *)
Definition demo_fit_call : FitCall :=
  {| fit_x := fst (loaded demo_fs); fit_y := snd (loaded demo_fs);
     fit_batch_size := 32; fit_epochs := 100;
     fit_validation_split := 1 # 10;
     fit_callbacks :=
       [EarlyStopping "val_loss" (1 # 10000) 5 true; TerminateOnNaN] |}.

(** A file system in which the output path is a regular file. *)
Definition blocked_fs : gmap path entry :=
  <[["out"] := File (Blob "note")]> demo_fs.

(** *** Assertions on runs *)

Definition is_model_save (e : event) : Prop :=
  match e with Called (CallModelSave _) => True | _ => False end.

Definition is_training_call (e : event) : Prop :=
  match e with
  | Called (CallLoadWeights _) | Called (CallFit _) => True
  | _ => False
  end.

Definition not_call (e : event) : Prop :=
  match e with Called _ => False | _ => True end.

(** As long as [model.save] has not been called, the file system is
    as the run found it. *)
Definition intact_before_export {A : Type} (m : M A) : Prop :=
  forall fs,
    Forall (fun e => ~ is_model_save e) (log (m fs)) -> fs_out (m fs) = fs.

(** From a file system satisfying [H] the computation raises, changes
    nothing and logs only events satisfying [P]. *)
Definition stops {A : Type} (H : gmap path entry -> Prop) (P : event -> Prop)
    (m : M A) : Prop :=
  forall fs, H fs ->
    (exists e, res (m fs) = inl e) /\ fs_out (m fs) = fs /\
    Forall P (log (m fs)).

(** Outside [out] nothing is deleted or overwritten; what appears
    there are missing directories on the way to [out]. *)
Definition keeps_outside (out : path) : assertion := fun fs fs' _ _ =>
  forall p, ~ out `prefix_of` p ->
    fs' !! p = fs !! p \/
    (fs !! p = None /\ fs' !! p = Some Dir /\ p `prefix_of` out).

(** A computation that returns leaves a regular file at [p]. *)
Definition leaves {A : Type} (p : path) (m : M A) : Prop :=
  forall fs a, res (m fs) = inr a ->
    exists c, fs_out (m fs) !! p = Some (File c).

(** The calls of a log, in order. *)
Definition calls (l : list event) : list call :=
  omap (fun e => match e with Called c => Some c | _ => None end) l.

Definition is_fit (c : call) : Prop :=
  match c with CallFit _ => True | _ => False end.

(** The calls of [main] in program order. *)
Definition script (args : Args) : list (call -> Prop) :=
  match initial_weights args with
  | Some p => [eq (CallLoadWeights p)]
  | None => []
  end ++
  [is_fit;
   eq (CallModelSave (output args ++ ["original"]));
   eq (CallConvert (output args ++ ["original"]) "FP16");
   eq (CallConverterSave (output args));
   eq (CallSaveWeights (output args ++ ["weights.h5"]));
   eq (CallPlotModel (output args ++ ["model.pdf"]));
   eq (CallSavefig (output args ++ ["metrics.pdf"]))].

(** Every run makes the first calls of [s], in order, and all of them
    if it returns. *)
Definition follows {A : Type} (s : list (call -> Prop)) (m : M A) : Prop :=
  forall fs, exists s1 s2,
    s = s1 ++ s2 /\
    Forall2 (fun (P : call -> Prop) c => P c) s1 (calls (log (m fs))) /\
    (forall a, res (m fs) = inr a -> s2 = []).

End More.

(** ** Facts about the batch-size loop *)

Module BatchSizeFacts.
Import BatchSize.
Open Scope Z_scope.

Lemma guard_true n b : guard n b = true <-> b * 128 < n /\ b < 2048.
Proof. unfold guard. rewrite andb_true_iff, !Z.ltb_lt. tauto. Qed.

Lemma guard_false n b : guard n b = false <-> n <= b * 128 \/ 2048 <= b.
Proof. unfold guard. rewrite andb_false_iff, !Z.ltb_ge. tauto. Qed.

Lemma while_loop_unfold fuel n b :
  while_loop fuel n b =
    if guard n b then
      match fuel with
      | O => None
      | S fuel' => while_loop fuel' n (b * 2)
      end
    else Some b.
Proof. destruct fuel; reflexivity. Qed.

(** The value returned is the start value doubled [k] times, where [k] is
    the first iteration count at which the guard fails. *)
Lemma while_loop_least fuel : forall n b r,
  while_loop fuel n b = Some r ->
  exists k : nat,
    (k <= fuel)%nat /\ r = b * 2 ^ Z.of_nat k /\ guard n r = false /\
    forall i : nat, (i < k)%nat -> guard n (b * 2 ^ Z.of_nat i) = true.
Proof.
  induction fuel as [|fuel IH]; intros n b r; rewrite while_loop_unfold;
    destruct (guard n b) eqn:G; intros Hr; try discriminate.
  - injection Hr as <-. exists O. repeat split; [lia | lia | assumption | lia].
  - apply IH in Hr as (k & Hk & -> & Hg & Hlt).
    exists (S k). repeat split.
    + lia.
    + rewrite Nat2Z.inj_succ, Z.pow_succ_r by lia. ring.
    + assumption.
    + intros [|i] Hi.
      * simpl. now rewrite Z.mul_1_r.
      * specialize (Hlt i ltac:(lia)).
        rewrite Nat2Z.inj_succ, Z.pow_succ_r by lia.
        now replace (b * (2 * 2 ^ Z.of_nat i)) with (b * 2 * 2 ^ Z.of_nat i) by ring.
  - injection Hr as <-. exists O. repeat split; [lia | lia | assumption | lia].
Qed.

(** The loop returns as soon as the fuel covers the doublings left below
    the cap. *)
Lemma while_loop_total fuel : forall n b,
  2048 <= b * 2 ^ Z.of_nat fuel ->
  exists r, while_loop fuel n b = Some r.
Proof.
  induction fuel as [|fuel IH]; intros n b Hcap; rewrite while_loop_unfold;
    destruct (guard n b) eqn:G; eauto.
  - apply guard_true in G. simpl in Hcap. lia.
  - apply IH. rewrite Nat2Z.inj_succ, Z.pow_succ_r in Hcap by lia. lia.
Qed.

Lemma select_total fuel n :
  (6 <= fuel)%nat -> exists b, select fuel n = Some b.
Proof.
  intros Hf. apply while_loop_total.
  assert (2 ^ 6 <= 2 ^ Z.of_nat fuel) by (apply Z.pow_le_mono_r; lia).
  change (2 ^ 6) with 64 in *. lia.
Qed.

Lemma doublings_below_cap (k : nat) :
  32 * 2 ^ Z.of_nat k < 2048 -> (k < 6)%nat.
Proof.
  intros H. destruct (le_lt_dec 6 k) as [Hk|]; [|assumption].
  assert (2 ^ 6 <= 2 ^ Z.of_nat k) by (apply Z.pow_le_mono_r; lia).
  change (2 ^ 6) with 64 in *. lia.
Qed.

Lemma select_range fuel n b :
  select fuel n = Some b ->
  exists k : nat, (k <= 6)%nat /\ b = 2 ^ (5 + Z.of_nat k) /\ 32 <= b <= 2048.
Proof.
  intros Hb. apply while_loop_least in Hb as (k & _ & -> & _ & Hlt).
  assert (Hk : (k <= 6)%nat).
  { destruct k as [|k]; [lia|].
    specialize (Hlt k ltac:(lia)). apply guard_true in Hlt as [_ Hlt].
    apply doublings_below_cap in Hlt. lia. }
  exists k. split; [assumption|]. split.
  - rewrite Z.pow_add_r by lia. reflexivity.
  - assert (0 < 2 ^ Z.of_nat k) by (apply Z.pow_pos_nonneg; lia).
    assert (2 ^ Z.of_nat k <= 2 ^ 6) by (apply Z.pow_le_mono_r; lia).
    change (2 ^ 6) with 64 in *. lia.
Qed.

Lemma guard_mono n1 n2 b :
  n1 <= n2 -> guard n1 b = true -> guard n2 b = true.
Proof. rewrite !guard_true. lia. Qed.

Lemma while_loop_mono f1 f2 n1 n2 b r1 r2 :
  0 < b -> n1 <= n2 ->
  while_loop f1 n1 b = Some r1 -> while_loop f2 n2 b = Some r2 ->
  r1 <= r2.
Proof.
  intros Hb Hn H1 H2.
  apply while_loop_least in H1 as (k1 & _ & -> & _ & Hlt1).
  apply while_loop_least in H2 as (k2 & _ & -> & Hg2 & _).
  destruct (le_lt_dec k1 k2) as [Hk|Hk].
  - apply Z.mul_le_mono_nonneg_l; [lia|]. apply Z.pow_le_mono_r; lia.
  - specialize (Hlt1 k2 Hk). apply (guard_mono _ _ _ Hn) in Hlt1. congruence.
Qed.

End BatchSizeFacts.

(** ** Facts about the layers *)

Module NetFacts.
Import Net.
Open Scope R_scope.

(** *** Sums and softmax over the reals *)

Lemma sum_app u v : sum (u ++ v) = sum u + sum v.
Proof. induction u as [|x u IH]; simpl; [lra | rewrite IH; lra]. Qed.

Lemma sum_fmap_div (f : R -> R) (s : R) (v : vec) :
  sum ((fun z => f z / s) <$> v) = sum (f <$> v) / s.
Proof.
  induction v as [|x v IH]; csimpl.
  - unfold Rdiv. now rewrite Rmult_0_l.
  - rewrite IH. unfold Rdiv. ring.
Qed.

Lemma sum_exp_nonneg (v : vec) : 0 <= sum (exp <$> v).
Proof.
  induction v as [|x v IH]; csimpl; [lra|].
  pose proof (exp_pos x). lra.
Qed.

Lemma sum_exp_pos (v : vec) : v <> [] -> 0 < sum (exp <$> v).
Proof.
  destruct v as [|x v]; [congruence|]. intros _. csimpl.
  pose proof (exp_pos x). pose proof (sum_exp_nonneg v). lra.
Qed.

Lemma softmax_length v : length (softmax v) = length v.
Proof. unfold softmax. now rewrite length_fmap. Qed.

(** Softmax is a distribution over all its positions ... *)
Lemma softmax_sum v : v <> [] -> sum (softmax v) = 1.
Proof.
  intros Hv. unfold softmax. rewrite sum_fmap_div.
  pose proof (sum_exp_pos v Hv). field. lra.
Qed.

(** ... and every one of them carries strictly positive mass. *)
Lemma softmax_pos v i q : softmax v !! i = Some q -> 0 < q.
Proof.
  unfold softmax. intros H.
  rewrite list_lookup_fmap in H.
  destruct (v !! i) as [z|] eqn:Hz; [|discriminate].
  injection H as <-.
  assert (Hv : v <> []) by (intros ->; discriminate).
  apply Rdiv_lt_0_compat; [apply exp_pos | now apply sum_exp_pos].
Qed.

Lemma sum_replicate c n : sum (replicate n c) = INR n * c.
Proof.
  induction n as [|n IH]; [simpl; lra|].
  rewrite S_INR. simpl. rewrite IH. lra.
Qed.

Lemma softmax_replicate_0 n :
  (0 < n)%nat -> softmax (replicate n 0) = replicate n (/ INR n).
Proof.
  intros Hn. unfold softmax.
  rewrite !fmap_replicate, exp_0, sum_replicate. f_equal.
  assert (0 < INR n) by now apply lt_0_INR.
  field. lra.
Qed.

(** *** Dense layers *)

Lemma dense_length units a K b x : length (dense units a K b x) = units.
Proof. unfold dense. now rewrite length_fmap, length_seq. Qed.

Lemma sum_imap_zero (x : vec) : forall f : nat -> R -> R,
  (forall i z, f i z = 0) -> sum (imap f x) = 0.
Proof.
  induction x as [|z x IH]; intros f Hf; simpl; [reflexivity|].
  rewrite Hf, IH; [lra|]. intros i y. apply Hf.
Qed.

Lemma dot_zero x : dot x (fun _ => 0) = 0.
Proof. unfold dot. apply sum_imap_zero. intros. ring. Qed.

Lemma fmap_const_seq {A} (c : A) n s : (fun _ => c) <$> seq s n = replicate n c.
Proof. revert s. induction n as [|n IH]; intros s; simpl; [reflexivity | now rewrite IH]. Qed.

Lemma dense_zero units x :
  dense units linear (fun _ _ => 0) (fun _ => 0) x = replicate units 0.
Proof.
  unfold dense. rewrite <- (fmap_const_seq 0 units 0%nat).
  apply list_fmap_ext. intros i j _. simpl. rewrite dot_zero. ring.
Qed.

(** *** The graph built by [build_model] *)

(** Both heads read the same fused feature vector, which evaluates to a
    rank-1 tensor whenever the three state inputs are fed with tensors
    of their declared shapes. *)
Lemma build_model_heads hs hh hd hm n :
  exists relu_2,
    outputs (build_model hs hh hd hm n) =
      [Softmax "policy"
         (Multiply [Dense n linear None (Some (l2 (1 # 1000))) relu_2;
                    Input "output_mask" hm]);
       Dense 1 tanh_act (Some "value") (Some (l2 (1 # 1000))) relu_2]
    /\ forall p feed mh vh md,
        feed "history" = Some (T2 mh) -> has_shape (T2 mh) hs = true ->
        feed "hands" = Some (T1 vh) -> has_shape (T1 vh) hh = true ->
        feed "drawpile" = Some (T2 md) -> has_shape (T2 md) hd = true ->
        exists x, eval p feed relu_2 = Some (T1 x).
Proof.
  eexists. split; [reflexivity|].
  intros p feed mh vh md Hh Hhs Hv Hvs Hd Hds.
  cbn -[has_shape dense leaky_relu]. rewrite Hh, Hv, Hd.
  cbn -[has_shape dense leaky_relu]. rewrite Hhs, Hvs, Hds.
  cbn -[dense leaky_relu]. eauto.
Qed.

End NetFacts.

(** ** Rules for the assertions *)

Module SysFacts.
Import Py Numpy Sys Logic.

Lemma bind_run {A B} (m : M A) (k : A -> M B) fs :
  (m ≫= k) fs =
    match res (m fs) with
    | inl e => Outcome (inl e) (fs_out (m fs)) (log (m fs))
    | inr a =>
        Outcome (res (k a (fs_out (m fs)))) (fs_out (k a (fs_out (m fs))))
                (log (m fs) ++ log (k a (fs_out (m fs))))
    end.
Proof. reflexivity. Qed.

Lemma parent_prefix (p : path) : parent p `prefix_of` p.
Proof.
  unfold parent. destruct (decide (p = [])) as [->|Hne]; [reflexivity|].
  rewrite (app_removelast_last "" Hne) at 2. now apply prefix_app_r.
Qed.

(** *** Structural rules *)

Section Rules.
Context (Q : assertion) `{!Sequential Q}.

Lemma sat_ret {A} (a : A) : sat Q (mret a).
Proof. intros fs. apply seq_skip. Qed.

Lemma sat_bind {A B} (m : M A) (k : A -> M B) :
  sat Q m -> (forall a, sat Q (k a)) -> sat Q (m ≫= k).
Proof.
  intros Hm Hk fs. rewrite bind_run.
  specialize (Hm fs). destruct (res (m fs)) as [e|a]; [exact Hm|].
  cbn [res fs_out log]. eapply seq_then; [exact Hm | apply Hk].
Qed.

Lemma sat_raise {A} e : may_raise Q e -> sat Q (@raise A e).
Proof. intros H fs. apply H. Qed.

Lemma sat_lift {A} (r : result A) :
  (forall e, r = inl e -> may_raise Q e) -> sat Q (lift r).
Proof.
  destruct r as [e|a]; intros H; [apply sat_raise; auto | apply sat_ret].
Qed.

Lemma sat_emit ev : may_emit Q ev -> sat Q (emit ev).
Proof. intros H fs. apply H. Qed.

Lemma sat_stat p : sat Q (stat p).
Proof. intros fs. apply seq_skip. Qed.

Lemma sat_create p e : may_create Q p e -> sat Q (create p e).
Proof. intros H fs. apply H. Qed.

Lemma sat_remove_tree p : may_remove Q p -> sat Q (remove_tree p).
Proof. intros H fs. apply H. Qed.

Lemma sat_read_tree root : sat Q (Train.read_tree root).
Proof. intros fs. apply seq_skip. Qed.
End Rules.

(** *** The assertions are sequential, and what they allow *)

#[export] Instance readonly_sequential : Sequential readonly.
Proof. split; unfold readonly; [reflexivity | congruence]. Qed.

#[export] Instance logs_sequential P : Sequential (logs P).
Proof.
  split; unfold logs; [constructor | intros; now apply Forall_app].
Qed.

#[export] Instance raises_sequential E : Sequential (raises E).
Proof. split; unfold raises; [discriminate | auto]. Qed.

#[export] Instance tracks_sequential : Sequential tracks.
Proof.
  split; unfold tracks.
  - auto.
  - intros fs0 fs1 fs2 l1 l2 r H1 H2 p e Hp.
    destruct (H2 p e Hp) as [H|H].
    + destruct (H1 p e H) as [H'|H']; [now left | right].
      apply elem_of_app. now left.
    + right. apply elem_of_app. now right.
Qed.

#[export] Instance touches_sequential S : Sequential (touches S).
Proof.
  split; unfold touches; [reflexivity|].
  intros fs0 fs1 fs2 l1 l2 r H1 H2 p Hp. now rewrite H2, H1.
Qed.

Lemma may_raise_readonly e : may_raise readonly e.
Proof. intros fs. reflexivity. Qed.

Lemma may_emit_readonly ev : may_emit readonly ev.
Proof. intros fs. reflexivity. Qed.

Lemma may_raise_logs P e : may_raise (logs P) e.
Proof. intros fs. constructor. Qed.

Lemma may_emit_logs (P : event -> Prop) ev : P ev -> may_emit (logs P) ev.
Proof. intros H fs. now repeat constructor. Qed.

Lemma may_create_logs (P : event -> Prop) p e :
  P (Created p e) -> may_create (logs P) p e.
Proof. intros H fs. now repeat constructor. Qed.

Lemma may_remove_logs (P : event -> Prop) p :
  P (Removed p) -> may_remove (logs P) p.
Proof. intros H fs. now repeat constructor. Qed.

Lemma may_raise_raises (E : exn -> Prop) e : E e -> may_raise (raises E) e.
Proof. intros H fs e' [= <-]. exact H. Qed.

Lemma may_emit_raises E ev : may_emit (raises E) ev.
Proof. intros fs e. discriminate. Qed.

Lemma may_create_raises E p e : may_create (raises E) p e.
Proof. intros fs e'. discriminate. Qed.

Lemma may_remove_raises E p : may_remove (raises E) p.
Proof. intros fs e'. discriminate. Qed.

Lemma may_raise_tracks e : may_raise tracks e.
Proof. intros fs p e'. auto. Qed.

Lemma may_emit_tracks ev : may_emit tracks ev.
Proof. intros fs p e'. auto. Qed.

Lemma may_create_tracks p e : may_create tracks p e.
Proof.
  intros fs q e'. rewrite lookup_insert. case_decide as Hq.
  - intros [= <-]. subst q. right. apply list_elem_of_singleton. reflexivity.
  - auto.
Qed.

Lemma may_remove_tracks p : may_remove tracks p.
Proof.
  intros fs q e. intros H. left.
  apply map_lookup_filter_Some in H. tauto.
Qed.

Lemma may_raise_touches S e : may_raise (touches S) e.
Proof. intros fs p _. reflexivity. Qed.

Lemma may_emit_touches S ev : may_emit (touches S) ev.
Proof. intros fs p _. reflexivity. Qed.

Lemma may_create_touches (S : path -> Prop) p e :
  S p -> may_create (touches S) p e.
Proof.
  intros Hp fs q Hq. apply lookup_insert_ne. intros ->. now apply Hq.
Qed.

Lemma may_remove_touches (S : path -> Prop) p :
  (forall q, p `prefix_of` q -> S q) -> may_remove (touches S) p.
Proof.
  intros Hp fs q Hq.
  destruct (fs !! q) as [e|] eqn:E.
  - apply map_lookup_filter_Some. split; [assumption|].
    cbn. intros Hpre. apply Hq, Hp, Hpre.
  - apply map_lookup_filter_None. left. assumption.
Qed.

#[export] Instance readonly_lenient : Lenient readonly.
Proof. intros e _. apply may_raise_readonly. Qed.

#[export] Instance fuel_left_lenient : Lenient (raises fuel_left).
Proof. intros e He. apply may_raise_raises. intros ->. exact He. Qed.

#[export] Instance logs_lenient P : Lenient (logs P).
Proof. intros e _. apply may_raise_logs. Qed.

#[export] Instance tracks_lenient : Lenient tracks.
Proof. intros e _. apply may_raise_tracks. Qed.

#[export] Instance touches_lenient S : Lenient (touches S).
Proof. intros e _. apply may_raise_touches. Qed.

#[export] Instance raises_lenient :
  Lenient (raises (fun e => ~ transform_error e)).
Proof.
  intros e He. apply may_raise_raises. intros [->| ->]; exact He.
Qed.

(** *** Errors of the array operations *)

Lemma getitem_error {V} (d : gmap string V) k e :
  getitem d k = inl e -> builtin e.
Proof. unfold getitem. destruct (d !! k); intros [= <-]. exact I. Qed.

Lemma len_error a e : len a = inl e -> builtin e.
Proof. unfold len. destruct (shape a); intros [= <-]. exact I. Qed.

Lemma reshape_error a sh e : reshape a sh = inl e -> builtin e.
Proof. unfold reshape. destruct (Nat.eqb _ _); intros [= <-]. exact I. Qed.

Lemma first_error a e : first a = inl e -> builtin e.
Proof.
  unfold first. destruct (shape a) as [|[|n] sh]; intros [= <-]; exact I.
Qed.

Lemma tuple0_error sh e : tuple0 sh = inl e -> builtin e.
Proof. unfold tuple0. destruct sh; intros [= <-]. exact I. Qed.

Create HintDb array.

#[export] Hint Resolve getitem_error len_error reshape_error first_error
  tuple0_error : array.

(** *** Derived rules for the compound actions *)

Ltac may_raise_other :=
  first [ assumption
        | solve [apply lenient; try exact _; first [exact I | eauto with array] ] ].

Ltac sat_step :=
  lazymatch goal with
  | |- sat _ (mbind _ _) => apply sat_bind; [exact _ | | intros ? ]
  | |- sat _ (mret _) => apply sat_ret; exact _
  | |- sat _ (raise _) => apply sat_raise; may_raise_other
  | |- sat _ (lift _) => apply sat_lift; [exact _ | intros; may_raise_other]
  | |- sat _ (stat _) => apply sat_stat; exact _
  | |- sat _ (Train.read_tree _) => apply sat_read_tree; exact _
  | |- sat _ (match ?x with _ => _ end) => destruct x eqn:?
  end.

Section Derived.
Context (Q : assertion) `{!Sequential Q} `{!Lenient Q}.

Lemma sat_path_exists p : sat Q (path_exists p).
Proof. unfold path_exists. repeat sat_step. Qed.

Lemma sat_rmtree p : may_remove Q p -> sat Q (rmtree p).
Proof.
  intros H. unfold rmtree. repeat sat_step; now apply sat_remove_tree.
Qed.

Lemma sat_makedirs_from rest : forall base,
  (forall d, base `prefix_of` d -> d `prefix_of` base ++ rest ->
             may_create Q d Dir) ->
  sat Q (makedirs_from base rest).
Proof.
  induction rest as [|c rest IH]; intros base H; cbn [makedirs_from];
    [now apply sat_ret|].
  assert (Hrec : sat Q (makedirs_from (base ++ [c]) rest)).
  { apply IH. intros d Hd1 Hd2. apply H.
    - etransitivity; [|exact Hd1]. now apply prefix_app_r.
    - now rewrite <- app_assoc in Hd2. }
  repeat sat_step; try exact Hrec.
  apply sat_create. apply H; [now apply prefix_app_r|].
  apply prefix_app, prefix_cons, prefix_nil.
Qed.

Lemma sat_makedirs target :
  (forall d, d `prefix_of` target -> may_create Q d Dir) ->
  sat Q (makedirs target).
Proof. intros H. apply sat_makedirs_from; try exact _. intros d _. apply H. Qed.

Lemma sat_write_file p c : may_create Q p (File c) -> sat Q (write_file p c).
Proof.
  intros H. unfold write_file. repeat sat_step; now apply sat_create.
Qed.

Lemma sat_np_load p : sat Q (np_load p).
Proof. unfold np_load. repeat sat_step. Qed.

Lemma sat_external {A} who (r : option A) :
  may_raise Q (ExternalError who) -> sat Q (Train.external who r).
Proof. intros H. unfold Train.external. repeat sat_step. Qed.

Lemma sat_write_tree root files :
  (forall d, d `prefix_of` root \/ root `prefix_of` d -> may_create Q d Dir) ->
  (forall d c, root `prefix_of` d -> may_create Q d (File c)) ->
  sat Q (write_tree root files).
Proof.
  intros Hd Hf. induction files as [|[rel c] files IH]; cbn [write_tree];
    [now apply sat_ret|].
  repeat sat_step; try exact IH.
  - apply sat_makedirs; try exact _. intros d Hpre. apply Hd.
    apply (prefix_weak_total d root (root ++ rel)); [|now apply prefix_app_r].
    etransitivity; [exact Hpre | apply parent_prefix].
  - apply sat_write_file; try exact _. apply Hf. now apply prefix_app_r.
Qed.

Lemma sat_plot_metrics {W T} (ext : Train.Externals W T) history output :
  may_emit Q (Called (CallSavefig output)) ->
  may_raise Q (ExternalError pyplot_savefig) ->
  (forall c, may_create Q output (File c)) ->
  sat Q (Train.plot_metrics ext history output).
Proof.
  intros He Hr Hc. unfold Train.plot_metrics. repeat sat_step.
  - now apply sat_emit.
  - now apply sat_external.
  - now apply sat_write_file.
Qed.

Lemma sat_sample_shape d key : sat Q (Train.sample_shape d key).
Proof. unfold Train.sample_shape. repeat sat_step. Qed.

Lemma sat_load_data filename : sat Q (Train.load_data filename).
Proof.
  unfold Train.load_data.
  apply sat_bind; [exact _ | apply sat_np_load | intros batch].
  repeat sat_step.
Qed.
End Derived.

End SysFacts.

(** ** Rules for whole runs *)

Module RunFacts.
Import Py Numpy Sys Train Logic SysFacts.

Ltac run_unfold :=
  unfold mbind, M_bind, bind, mret, M_ret, ret, raise, stat, remove_tree,
    create, emit, lift in *;
  cbn [res fs_out log] in *.

Lemma wf_fs_parent fs p e :
  wf_fs fs -> fs !! p = Some e ->
  parent p = [] \/ fs !! parent p = Some Dir.
Proof.
  unfold wf_fs, wf_fsb. rewrite forallb_forall. intros Hwf Hp.
  specialize (Hwf (p, e)). cbn in Hwf.
  assert (Hin : In (p, e) (map_to_list fs)).
  { apply list_elem_of_In, elem_of_map_to_list. exact Hp. }
  specialize (Hwf Hin). unfold parent in *. revert Hwf.
  destruct (removelast p) as [|c q]; [now left|]. right. revert Hwf.
  destruct (fs !! (c :: q)) as [[|]|]; congruence.
Qed.

(** In a well-formed file system nothing lies below a missing path. *)
Lemma wf_fs_cleared fs out :
  wf_fs fs -> out <> [] -> fs !! out = None -> cleared out fs.
Proof.
  intros Hwf Hne Hout p [s ->].
  induction s as [|c s IH] using rev_ind.
  - now rewrite app_nil_r.
  - destruct (fs !! (out ++ s ++ [c])) as [e|] eqn:E; [|reflexivity].
    apply (wf_fs_parent _ _ _ Hwf) in E.
    unfold parent in E. rewrite app_assoc, removelast_last in E.
    destruct E as [E|E]; [|congruence].
    apply app_eq_nil in E as [E _]. contradiction.
Qed.

Lemma remove_tree_cleared out fs :
  cleared out (filter (fun kv : path * entry => ~ out `prefix_of` kv.1) fs).
Proof.
  intros p Hp. apply map_lookup_filter_None. right. intros e _. cbn. tauto.
Qed.

(** The guarded removal at the head of the persistence phase. *)
Lemma clear_run out fs :
  wf_fs fs ->
  let o := (ex ← path_exists out;
            if ex : bool then rmtree out else mret tt) fs in
  match res o with
  | inl e => e <> convert_error /\ fs_out o = fs /\ log o = []
  | inr _ =>
      cleared out (fs_out o) /\
      (log o = [Removed out] \/ log o = [] /\ out <> [] /\ fs !! out = None)
  end.
Proof.
  intros Hwf. unfold path_exists, rmtree. run_unfold.
  destruct out as [|c out].
  - cbn. split; [apply remove_tree_cleared | now left].
  - destruct (fs !! (c :: out)) as [[|f]|] eqn:E; cbn; rewrite ?E; cbn.
    + split; [apply remove_tree_cleared | now left].
    + repeat split. discriminate.
    + split; [now apply wf_fs_cleared | right; repeat split; discriminate].
Qed.

Lemma bind_assoc {A B C} (m : M A) (f : A -> M B) (g : B -> M C) fs :
  ((m ≫= f) ≫= g) fs = (m ≫= fun a => f a ≫= g) fs.
Proof.
  rewrite !bind_run. destruct (res (m fs)) as [e|a]; cbn [res fs_out log];
    [reflexivity|].
  rewrite bind_run.
  destruct (res (f a (fs_out (m fs)))) as [e|b]; cbn [res fs_out log];
    [reflexivity|].
  now rewrite app_assoc.
Qed.

(** *** [replaces] *)

Lemma replaces_pre {A} out (m : M A) (k : A -> M unit) :
  sat readonly m -> sat (logs (fun e => ~ is_created e)) m ->
  (forall a, replaces out (k a)) ->
  replaces out (m ≫= k).
Proof.
  intros Hro Hlog Hk fs Hwf. rewrite bind_run.
  specialize (Hro fs). specialize (Hlog fs). unfold readonly, logs in *.
  destruct (res (m fs)) as [e|a]; cbn [res fs_out log].
  - exists (log (m fs)), []. rewrite app_nil_r.
    split; [reflexivity|]. split; [assumption|]. split; [constructor|].
    intros [H|H]; [discriminate H | now destruct H].
  - rewrite Hro.
    destruct (Hk a fs Hwf) as (l1 & l2 & -> & H1 & H2 & H3).
    exists (log (m fs) ++ l1), l2.
    split; [now rewrite app_assoc|]. split; [now apply Forall_app|].
    split; [assumption|]. intros Hpast.
    destruct (H3 Hpast) as [H4 H5]. split; [|assumption].
    intros Hex. apply elem_of_app. right. now apply H4.
Qed.

Lemma replaces_cut out (rest : M unit) :
  sat tracks rest -> sat (logs (fun e => ~ is_removed e)) rest ->
  replaces out
    (ex ← path_exists out;
     (if ex : bool then rmtree out else mret tt);; rest).
Proof.
  intros Htr Hlog fs Hwf. rewrite <- bind_assoc, bind_run.
  pose proof (clear_run out fs Hwf) as Hc. cbv zeta in Hc.
  set (o := (path_exists out ≫= _) fs) in *.
  destruct (res o) as [e|[]]; cbn [res fs_out log].
  - destruct Hc as (_ & _ & ->). exists [], [].
    split; [reflexivity|]. split; [constructor|]. split; [constructor|].
    intros [H|H]; [discriminate H | now destruct H].
  - destruct Hc as [Hcl Hl].
    exists (log o), (log (rest (fs_out o))).
    split; [reflexivity|]. split.
    { destruct Hl as [->|[-> _]]; repeat constructor. cbn. tauto. }
    split; [apply Hlog|]. intros _. split.
    + intros Hex. destruct Hl as [->|(_ & Hne & Hnone)].
      * apply list_elem_of_singleton. reflexivity.
      * destruct Hex as [->|[e He]]; congruence.
    + intros p e Hp He. destruct (Htr (fs_out o) p e He) as [H|H]; [|exact H].
      rewrite (Hcl p Hp) in H. discriminate.
Qed.

(** *** What a successful action has logged *)

Lemma bind_returns {A B} (m : M A) (k : A -> M B) fs b :
  res ((m ≫= k) fs) = inr b ->
  exists a,
    res (m fs) = inr a /\ res (k a (fs_out (m fs))) = inr b /\
    log ((m ≫= k) fs) = log (m fs) ++ log (k a (fs_out (m fs))).
Proof.
  rewrite bind_run. destruct (res (m fs)) as [e|a]; cbn [res log];
    [discriminate | eauto].
Qed.

Lemma write_file_log p c fs u :
  res (write_file p c fs) = inr u ->
  log (write_file p c fs) = [Created p (File c)].
Proof.
  unfold write_file. rewrite bind_run. cbn [stat res fs_out log].
  destruct (match parent p with [] => Some Dir | _ => fs !! parent p end)
    as [[|c0]|]; cbn [raise res]; [|discriminate..].
  rewrite bind_run. cbn [stat res fs_out log].
  destruct (match p with [] => Some Dir | _ => fs !! p end) as [[|c0]|];
    cbn [raise create res log app]; [discriminate|reflexivity..].
Qed.

Lemma write_tree_log root files : forall fs u,
  res (write_tree root files fs) = inr u ->
  Forall (fun e => e ∈ log (write_tree root files fs)) (created root files).
Proof.
  induction files as [|[rel c] files IH]; intros fs u; [constructor|].
  cbn [write_tree]. intros H.
  apply bind_returns in H as (u1 & _ & H & ->).
  pose proof H as H'.
  apply bind_returns in H' as (u2 & Hw & Ht & ->).
  apply write_file_log in Hw. rewrite Hw.
  unfold created. cbn [fmap list_fmap]. constructor.
  - cbn [fst snd]. apply elem_of_app. right. apply elem_of_cons. now left.
  - eapply Forall_impl; [exact (IH _ _ Ht)|].
    intros e He. apply elem_of_app. right. apply elem_of_app. now right.
Qed.

Lemma external_returns {A} who (r : option A) fs a :
  res (Train.external who r fs) = inr a -> r = Some a.
Proof. destruct r; cbn; congruence. Qed.

(** *** [reached] *)

Lemma reached_app pat seg l' : forall l,
  reached pat seg l -> reached pat seg (l ++ l').
Proof.
  induction pat as [|[req mark] pat IH]; intros l; cbn [reached].
  - intros H. eapply Forall_impl; [exact H|].
    intros e He. apply elem_of_app. now left.
  - intros (a & d & -> & Ha & Hd). exists a, (d ++ l').
    split; [now rewrite <- app_assoc|]. split; [exact Ha | now apply IH].
Qed.

Lemma reached_more pat seg req l' : forall l,
  reached pat seg l -> Forall (fun e => e ∈ l') req ->
  reached pat (seg ++ req) (l ++ l').
Proof.
  induction pat as [|[rq mark] pat IH]; intros l; cbn [reached].
  - intros Hs Hr. apply Forall_app. split.
    + eapply Forall_impl; [exact Hs|]. intros e He. apply elem_of_app. now left.
    + eapply Forall_impl; [exact Hr|]. intros e He. apply elem_of_app. now right.
  - intros (a & d & -> & Ha & Hd) Hr. exists a, (d ++ l').
    split; [now rewrite <- app_assoc|]. split; [exact Ha | now apply IH].
Qed.

Lemma reached_mark pat seg mark : forall l,
  reached pat seg l -> reached (pat ++ [(seg, mark)]) [] (l ++ [mark]).
Proof.
  induction pat as [|[rq mk] pat IH]; intros l; cbn [reached app].
  - intros Hs. exists l, []. repeat split; [exact Hs | constructor].
  - intros (a & d & -> & Ha & Hd). exists a, (d ++ [mark]).
    split; [now rewrite <- app_assoc|]. split; [exact Ha | now apply IH].
Qed.

(** *** [stage] *)

Lemma late_in_rest (lm lk l1 l2 : list event) e :
  Forall (fun x => ~ is_late x) lm -> is_late e ->
  lm ++ lk = l1 ++ e :: l2 ->
  exists k, l1 = lm ++ k /\ lk = k ++ e :: l2.
Proof.
  intros Hq He H. apply app_eq_inv in H as [(k & -> & Hk)|(k & -> & ->)].
  - destruct k as [|x k].
    + exists []. cbn in Hk. subst lk. now rewrite !app_nil_r.
    + injection Hk as <- _. apply Forall_app in Hq as [_ Hq].
      apply Forall_cons in Hq as [Hq _]. contradiction.
  - eauto.
Qed.

Lemma stage_step {A B} (S : list event -> Prop)
    (S' : A -> list event -> Prop) I (m : M A) (k : A -> M B) :
  sat (logs (fun e => ~ is_late e)) m ->
  (forall a fs pre, res (m fs) = inr a -> S pre -> S' a (pre ++ log (m fs))) ->
  (forall a, stage (S' a) I (k a)) ->
  stage S I (m ≫= k).
Proof.
  intros Hq Hpost Hk fs pre HS l1 e l2. rewrite bind_run.
  specialize (Hq fs). unfold logs in Hq.
  destruct (res (m fs)) as [x|a] eqn:E; cbn [log].
  - intros Hl He. rewrite Hl in Hq. apply Forall_app in Hq as [_ Hq].
    apply Forall_cons in Hq as [Hq _]. contradiction.
  - intros Hl He.
    destruct (late_in_rest _ _ _ _ _ Hq He Hl) as (k0 & -> & Hk0).
    rewrite app_assoc.
    exact (Hk a _ _ (Hpost a fs pre E HS) _ _ _ Hk0 He).
Qed.

Lemma stage_keep {A B} pat seg I (m : M A) (k : A -> M B) :
  sat (logs (fun e => ~ is_late e)) m ->
  (forall a, stage (reached pat seg) I (k a)) ->
  stage (reached pat seg) I (m ≫= k).
Proof.
  intros Hq Hk. apply (stage_step _ (fun _ => reached pat seg)); [exact Hq| |exact Hk].
  intros _ fs pre _. apply reached_app.
Qed.

Lemma stage_mark {B} pat seg I mark (k : unit -> M B) :
  ~ is_late mark ->
  (forall u, stage (reached (pat ++ [(seg, mark)]) []) I (k u)) ->
  stage (reached pat seg) I (emit mark ≫= k).
Proof.
  intros Hm Hk.
  apply (stage_step _ (fun _ => reached (pat ++ [(seg, mark)]) []));
    [|intros _ fs pre _; apply reached_mark | exact Hk].
  intros fs. now repeat constructor.
Qed.

Lemma stage_external {A B} pat seg I who (r : option A) (k : A -> M B) :
  (forall a, r = Some a -> stage (reached pat seg) I (k a)) ->
  stage (reached pat seg) I (Train.external who r ≫= k).
Proof.
  intros Hk.
  apply (stage_step _ (fun a l => reached pat seg l /\ r = Some a)).
  - intros fs. destruct r; constructor.
  - intros a fs pre Hr Hp. split; [now apply reached_app|].
    now apply external_returns in Hr.
  - intros a fs pre [Hp Hr]. now apply Hk.
Qed.

Lemma stage_write_tree {B} pat seg I root files (k : unit -> M B) :
  sat (logs (fun e => ~ is_late e)) (write_tree root files) ->
  (forall u, stage (reached pat (seg ++ created root files)) I (k u)) ->
  stage (reached pat seg) I (write_tree root files ≫= k).
Proof.
  intros Hq Hk.
  apply (stage_step _ (fun _ => reached pat (seg ++ created root files)));
    [exact Hq | | exact Hk].
  intros u fs pre Hr Hp. apply reached_more; [exact Hp|].
  exact (write_tree_log _ _ _ _ Hr).
Qed.

Lemma stage_done {A} (S I : list event -> Prop) (m : M A) :
  (forall l l', I l -> I (l ++ l')) -> (forall l, S l -> I l) ->
  stage S I m.
Proof. intros Hmono HS fs pre Hp l1 e l2 _ _. apply Hmono, HS, Hp. Qed.

(** *** [stopped] *)

Lemma stopped_pre {A B} need (m : M A) (k : A -> M B) :
  sat (raises (fun e => ~ transform_error e)) m ->
  sat (logs (fun e => ~ is_late e)) m ->
  (forall a, stopped need (k a)) ->
  stopped need (m ≫= k).
Proof.
  intros Hex Hlog Hk fs e. rewrite bind_run.
  specialize (Hex fs). specialize (Hlog fs). unfold raises, logs in *.
  destruct (res (m fs)) as [x|a]; cbn [res log raised] in *.
  - intros [= ->] He. now destruct (Hex _ eq_refl).
  - intros Hres He. destruct (Hk a _ _ Hres He) as [H1 H2]. split.
    + eapply Forall_impl; [exact H1|]. intros x Hx. apply elem_of_app. now right.
    + now apply Forall_app.
Qed.

Lemma stopped_mark {B} mark (k : unit -> M B) :
  ~ is_late mark ->
  (forall u, stopped [] (k u)) ->
  stopped [mark] (emit mark ≫= k).
Proof.
  intros Hm Hk fs e. rewrite bind_run. cbn [emit res fs_out log].
  intros Hres He. destruct (Hk tt _ _ Hres He) as [_ H2]. split.
  - repeat constructor.
  - now constructor.
Qed.

Lemma stopped_step {A B} (m : M A) (k : A -> M B) :
  sat (logs (fun e => ~ is_late e)) m ->
  (forall a, stopped [] (k a)) ->
  stopped [] (m ≫= k).
Proof.
  intros Hlog Hk fs e. rewrite bind_run. specialize (Hlog fs). unfold logs in *.
  destruct (res (m fs)) as [x|a]; cbn [res log].
  - intros _ _. split; [constructor | exact Hlog].
  - intros Hres He. destruct (Hk a _ _ Hres He) as [_ H2].
    split; [constructor | now apply Forall_app].
Qed.

Lemma stopped_rest {A} need (m : M A) :
  sat (raises (fun e => ~ transform_error e)) m -> stopped need m.
Proof.
  intros Hex fs e Hres He. specialize (Hex fs). unfold raises in Hex.
  rewrite Hres in Hex. now destruct (Hex _ eq_refl).
Qed.

(** *** [unproduced] *)

Lemma unproduced_pre {A B} mark w (m : M A) (k : A -> M B) :
  sat readonly m -> sat (logs (fun e => e <> mark)) m ->
  (forall a, unproduced_after mark w (k a)) ->
  unproduced_after mark w (m ≫= k).
Proof.
  intros Hro Hlog Hk fs Hwf. rewrite bind_run.
  specialize (Hro fs). specialize (Hlog fs). unfold readonly, logs in *.
  destruct (res (m fs)) as [x|a]; cbn [res fs_out log].
  - intros Hin. rewrite Forall_forall in Hlog. now destruct (Hlog _ Hin).
  - rewrite Hro. intros Hin Hq. apply Forall_app in Hq as [_ Hq].
    apply (Hk a fs Hwf); [|exact Hq].
    apply elem_of_app in Hin as [Hin|Hin]; [|exact Hin].
    rewrite Forall_forall in Hlog. now destruct (Hlog _ Hin).
Qed.

Lemma unproduced_cut {B} mark out w (rest : M B) :
  out `prefix_of` w -> unproduced w rest ->
  unproduced_after mark w
    (ex ← path_exists out;
     (if ex : bool then rmtree out else mret tt);; rest).
Proof.
  intros Hw Hrest fs Hwf. rewrite <- bind_assoc, bind_run.
  pose proof (clear_run out fs Hwf) as Hc. cbv zeta in Hc.
  destruct (res _) as [e|[]]; cbn [res fs_out log].
  - destruct Hc as (_ & _ & ->). intros Hin. now apply elem_of_nil in Hin.
  - destruct Hc as [Hcl _]. intros _ Hq. apply Forall_app in Hq as [_ Hq].
    exact (Hrest _ (Hcl w Hw) Hq).
Qed.

Lemma unproduced_step {A B} w (m : M A) (k : A -> M B) :
  sat (touches (fun p => p <> w)) m ->
  (forall a, (exists fs, res (m fs) = inr a) -> unproduced w (k a)) ->
  unproduced w (m ≫= k).
Proof.
  intros Hto Hk fs Hnone. rewrite bind_run.
  assert (H1 : fs_out (m fs) !! w = None).
  { rewrite (Hto fs w); [exact Hnone | tauto]. }
  destruct (res (m fs)) as [x|a] eqn:E; cbn [res fs_out log]; [auto|].
  intros Hq. apply Forall_app in Hq as [_ Hq].
  exact (Hk a (ex_intro _ fs E) _ H1 Hq).
Qed.

Lemma unproduced_late {B} w ev (k : unit -> M B) :
  is_late ev -> unproduced w (emit ev ≫= k).
Proof.
  intros Hev fs _. rewrite bind_run. cbn [emit res fs_out log].
  intros Hq. apply Forall_cons in Hq as [Hq _]. contradiction.
Qed.

End RunFacts.

(** ** The driver, step by step *)

Module TrainFacts.
Import Constants Py Numpy Sys Logic SysFacts RunFacts Train.

Ltac event_side :=
  cbn; first [ reflexivity | exact I | tauto | discriminate
             | let H := fresh in intros H; solve [destruct H | discriminate H] ].

Ltac side_logs :=
  intros;
  lazymatch goal with
  | |- may_raise _ _ => apply may_raise_logs
  | |- may_emit _ _ => apply may_emit_logs; event_side
  | |- may_create _ _ _ => apply may_create_logs; event_side
  | |- may_remove _ _ => apply may_remove_logs; event_side
  end.

Ltac side_readonly :=
  intros;
  lazymatch goal with
  | |- may_raise _ _ => apply may_raise_readonly
  | |- may_emit _ _ => apply may_emit_readonly
  end.

Ltac side_tracks :=
  intros;
  lazymatch goal with
  | |- may_raise _ _ => apply may_raise_tracks
  | |- may_emit _ _ => apply may_emit_tracks
  | |- may_create _ _ _ => apply may_create_tracks
  | |- may_remove _ _ => apply may_remove_tracks
  end.

Ltac side_raises :=
  intros;
  lazymatch goal with
  | |- may_raise _ _ =>
      apply may_raise_raises;
      first [ unfold fuel_left; discriminate
            | intros [H|H]; discriminate H ]
  | |- may_emit _ _ => apply may_emit_raises
  | |- may_create _ _ _ => apply may_create_raises
  | |- may_remove _ _ => apply may_remove_raises
  end.

Lemma sibling_above (out d : path) (a b : string) :
  d `prefix_of` out ++ [a] -> a <> b -> d <> out ++ [b].
Proof.
  intros [k Hk] Hab ->. rewrite <- app_assoc in Hk.
  apply app_inv_head in Hk. cbn in Hk. congruence.
Qed.

Lemma sibling_below (out d : path) (a b : string) :
  out ++ [a] `prefix_of` d -> a <> b -> d <> out ++ [b].
Proof.
  intros [k ->] Hab Hk. rewrite <- app_assoc in Hk.
  apply app_inv_head in Hk. cbn in Hk. congruence.
Qed.

Lemma above_ne (out d : path) (b : string) :
  d `prefix_of` out -> d <> out ++ [b].
Proof.
  intros Hd ->. apply prefix_length in Hd. rewrite length_app in Hd.
  cbn in Hd. lia.
Qed.

Ltac path_side :=
  match goal with
  | H : _ \/ _ |- _ => destruct H
  | _ => idtac
  end;
  first [ eapply sibling_above; [eassumption | discriminate]
        | eapply sibling_below; [eassumption | discriminate]
        | eapply above_ne; eassumption ].

Ltac side_touches :=
  intros;
  lazymatch goal with
  | |- may_raise _ _ => apply may_raise_touches
  | |- may_emit _ _ => apply may_emit_touches
  | |- may_create _ _ _ => apply may_create_touches; path_side
  end.

Ltac sat_run side :=
  repeat
    (cbv zeta;
     lazymatch goal with
     | |- sat _ (load_data _) => apply sat_load_data; exact _
     | |- sat _ (sample_shape _ _) => apply sat_sample_shape; exact _
     | |- sat _ (external _ _) => apply sat_external; first [exact _ | side]
     | |- sat _ (emit _) => apply sat_emit; side
     | |- sat _ (path_exists _) => apply sat_path_exists; exact _
     | |- sat _ (rmtree _) => apply sat_rmtree; first [exact _ | side]
     | |- sat _ (makedirs _) => apply sat_makedirs; first [exact _ | side]
     | |- sat _ (write_tree _ _) => apply sat_write_tree; first [exact _ | side]
     | |- sat _ (write_file _ _) => apply sat_write_file; first [exact _ | side]
     | |- sat _ (plot_metrics _ _ _) =>
         apply sat_plot_metrics; first [exact _ | side]
     | |- sat _ (raise _) => apply sat_raise; first [may_raise_other | side]
     | |- sat _ (let '(_, _) := ?x in _) => destruct x
     | _ => sat_step
     end).

Section Main.
Context {W T : Type} (ext : Externals W T) (fuel : nat) (args : Args).

Lemma main_fit_split : sat (logs fit_split_fixed) (main ext fuel args).
Proof. unfold main. sat_run side_logs. Qed.

(** With six units of fuel the batch-size loop returns, so the run
    never stops for lack of fuel. *)
Lemma main_fuel : (6 <= fuel)%nat -> sat (raises fuel_left) (main ext fuel args).
Proof.
  intros Hf. unfold main. sat_run side_raises.
  match goal with
  | H : BatchSize.select fuel ?n = None |- _ =>
      destruct (BatchSizeFacts.select_total fuel n Hf) as [b Hb]; congruence
  end.
Qed.

Lemma main_replaces : replaces (output args) (main ext fuel args).
Proof.
  unfold main. cbv zeta.
  repeat first
    [ apply replaces_cut;
        [solve [sat_run side_tracks] | solve [sat_run side_logs] ]
    | apply replaces_pre;
        [solve [sat_run side_readonly] | solve [sat_run side_logs]
        | intros ?]
    | match goal with x : (_ * _)%type |- _ => destruct x end ].
Qed.

(** Whatever a run has logged when it makes a late call, the export
    is complete in it. *)
Lemma main_stage :
  stage (reached [] []) (exported ext (output args)) (main ext fuel args).
Proof.
  unfold main. cbv zeta.
  repeat first
    [ progress cbn [app]
    | lazymatch goal with
      | |- stage _ _ (emit (Called (CallModelSave _)) ≫= _) => idtac
      | |- stage _ _ (emit (Called (CallConvert _ _)) ≫= _) => idtac
      | |- stage _ _ (emit (Called (CallConverterSave _)) ≫= _) => idtac
      end;
      apply stage_mark; [event_side | intros ?]
    | apply stage_external; intros ? ?
    | apply stage_write_tree; [solve [sat_run side_logs] | intros ?]
    | lazymatch goal with |- stage _ _ (_ ≫= _) => idtac end;
      apply stage_keep; [solve [sat_run side_logs] | intros ?]
    | match goal with x : (_ * _)%type |- _ => destruct x end ].
  apply stage_done.
  - intros l l' (saved & tree & t & files & Es & Ec & Ef & Er).
    exists saved, tree, t, files. repeat split; try assumption.
    now apply reached_app.
  - intros l Hl. do 4 eexists.
    split; [do 2 eexists; eassumption|].
    split; [eassumption|]. split; [eassumption | exact Hl].
Qed.

(** A run stopped by the conversion or by the converter's save
    raising has called [model.save] and has made no late call. *)
Lemma main_stopped :
  stopped [Called (CallModelSave (output args ++ ["original"]))]
          (main ext fuel args).
Proof.
  unfold main. cbv zeta.
  repeat first
    [ apply stopped_mark; [event_side | intros ?]
    | lazymatch goal with |- stopped [_] (_ ≫= _) => idtac end;
      apply stopped_pre;
        [solve [sat_run side_raises] | solve [sat_run side_logs] | intros ?]
    | match goal with x : (_ * _)%type |- _ => destruct x end ].
  repeat first
    [ lazymatch goal with |- stopped [] (_ ≫= _) => idtac end;
      apply stopped_step; [solve [sat_run side_logs] | intros ?]
    | match goal with x : (_ * _)%type |- _ => destruct x end ].
  apply stopped_rest. sat_run side_raises.
Qed.

Lemma touches_write_tree w root files :
  (forall rel c d, (rel, c) ∈ files -> d `prefix_of` root ++ rel -> d <> w) ->
  sat (touches (fun p => p <> w)) (write_tree root files).
Proof.
  induction files as [|[rel c] files IH]; intros H; cbn [write_tree].
  - apply sat_ret. exact _.
  - assert (Hin : (rel, c) ∈ (rel, c) :: files) by (apply elem_of_cons; now left).
    apply sat_bind; [exact _ | | intros _].
    + apply sat_makedirs; [exact _ | exact _ |]. intros d Hd.
      apply may_create_touches. apply (H rel c d Hin).
      etransitivity; [exact Hd | apply parent_prefix].
    + apply sat_bind; [exact _ | | intros _].
      * apply sat_write_file; [exact _ | exact _ |].
        apply may_create_touches. now apply (H rel c (root ++ rel) Hin).
      * apply IH. intros rel' c' d Hin'. apply (H rel' c').
        apply elem_of_cons. now right.
Qed.

(** A run on a well-formed file system that has called [model.save]
    and has made no late call leaves nothing at [weights.h5], as long
    as the converter's own files do not lie there. *)
Lemma main_unproduced :
  (forall t files rel c,
     converted_model ext t = Some files -> (rel, c) ∈ files ->
     ~ ["weights.h5"] `prefix_of` rel) ->
  unproduced_after (Called (CallModelSave (output args ++ ["original"])))
                   (output args ++ ["weights.h5"]) (main ext fuel args).
Proof.
  intros Hfiles. unfold main. cbv zeta.
  repeat first
    [ apply unproduced_cut; [now apply prefix_app_r|]
    | lazymatch goal with |- unproduced_after _ _ (_ ≫= _) => idtac end;
      apply unproduced_pre;
        [solve [sat_run side_readonly] | solve [sat_run side_logs] | intros ?]
    | match goal with x : (_ * _)%type |- _ => destruct x end ].
  repeat first
    [ apply unproduced_late; exact I
    | lazymatch goal with
      | |- unproduced _ (write_tree (output args) _ ≫= _) => idtac
      end;
      apply unproduced_step; [|intros ? ?];
      [ apply touches_write_tree; intros rel c d Hin Hd ->;
        apply prefix_app_inv in Hd;
        match goal with
        | H : exists fs, res (external _ _ fs) = inr _ |- _ =>
            destruct H as [fs0 H]; apply external_returns in H;
            exact (Hfiles _ _ _ _ H Hin Hd)
        end
      | ]
    | lazymatch goal with |- unproduced _ (_ ≫= _) => idtac end;
      apply unproduced_step; [solve [sat_run side_touches] | intros ? ?]
    | match goal with x : (_ * _)%type |- _ => destruct x end ].
Qed.

End Main.

End TrainFacts.

(** ** Claims about the two output heads *)

Module Heads.
Import Constants Net NetFacts Scenario.
Open Scope R_scope.

Lemma policy_head_eval n relu_2 hm p feed :
  let logits := Dense n linear None (Some (l2 (1 # 1000))) relu_2 in
  let mask := Input "output_mask" hm in
  eval p feed (Softmax "policy" (Multiply [logits; mask])) =
    (tx ← eval p feed relu_2; x ← as_vec tx;
     tm ← eval p feed mask; m ← as_vec tm;
     y ← multiply2 (dense n linear (kernel p logits) (bias p logits) x) m;
     Some (T1 (softmax y))).
Proof.
  intros logits mask. subst logits.
  cbn -[has_shape multiply2 dense softmax].
  destruct (eval p feed relu_2) as [[x|mx]|]; cbn -[has_shape multiply2 dense softmax];
    [|reflexivity|reflexivity].
  subst mask. cbn -[has_shape multiply2 dense softmax].
  destruct (feed "output_mask") as [tm|]; cbn -[has_shape multiply2 dense softmax];
    [|reflexivity].
  destruct (has_shape tm hm); cbn -[has_shape multiply2 dense softmax]; [|reflexivity].
  destruct tm as [m|mm]; cbn -[has_shape multiply2 dense softmax]; [|reflexivity].
  destruct (multiply2 _ m); reflexivity.
Qed.

Lemma zip_with_zero_l (m : vec) :
  zip_with Rmult (replicate (length m) 0) m = replicate (length m) 0.
Proof.
  induction m as [|z m IH]; [reflexivity|].
  cbn [length replicate zip_with]. rewrite IH. f_equal. ring.
Qed.

(** With all-zero dense parameters the masked logits are all zero,
    whatever the mask. *)
Lemma policy_head_zero n relu_2 feed (summ : layer -> list vec -> vec)
    (kp : layer -> nat -> R) (x m : vec) :
  let p := {| kernel := fun _ _ _ => 0; bias := fun _ _ => 0;
              summary := summ; keep := kp |} in
  eval p feed relu_2 = Some (T1 x) ->
  feed "output_mask" = Some (T1 m) ->
  length m = n ->
  eval p feed
    (Softmax "policy"
       (Multiply [Dense n linear None (Some (l2 (1 # 1000))) relu_2;
                  Input "output_mask" [n]])) =
    Some (T1 (softmax (replicate n 0))).
Proof.
  intros p Hx Hm Hn. rewrite policy_head_eval, Hx.
  cbn [as_vec mbind option_bind eval].
  rewrite Hm. cbn [mbind option_bind has_shape]. subst n.
  rewrite Nat.eqb_refl. cbn [mbind option_bind as_vec kernel bias p].
  rewrite dense_zero. unfold multiply2.
  rewrite length_replicate, Nat.eqb_refl, zip_with_zero_l. reflexivity.
Qed.

(** Whatever the parameters, the feed and the mask, no position of the
    policy output is zero, and the output sums to one over all of its
    positions. *)
Lemma policy_output_positive hs hh hd hm n p feed node out :
  policy_output (build_model hs hh hd hm n) = Some node ->
  eval p feed node = Some (T1 out) ->
  (forall i q, out !! i = Some q -> 0 < q) /\ (out <> [] -> sum out = 1).
Proof.
  destruct (build_model_heads hs hh hd hm n) as (relu_2 & Hout & _).
  unfold policy_output. rewrite Hout. intros [= <-].
  rewrite policy_head_eval.
  destruct (eval p feed relu_2) as [tx|]; [|discriminate]. cbn -[eval multiply2 dense softmax].
  destruct (as_vec tx) as [x|]; [|discriminate]. cbn -[eval multiply2 dense softmax].
  destruct (eval p feed _) as [tm|]; [|discriminate]. cbn -[eval multiply2 dense softmax].
  destruct (as_vec tm) as [m|]; [|discriminate]. cbn -[eval multiply2 dense softmax].
  destruct (multiply2 _ m) as [y|]; [|discriminate]. cbn -[softmax].
  intros [= <-]. split.
  - intros i q. apply softmax_pos.
  - intros Hne. apply softmax_sum. intros ->. now apply Hne.
Qed.

(** C2: in the graph [build_model] returns, the policy output is a softmax
    node applied to the product of the linear dense projection and the
    [output_mask] input, and it evaluates to the softmax of that
    element-wise product: the mask is applied before normalisation and
    the softmax comes last. *)
Theorem policy_head_masks_then_normalises hs hh hd hm n :
  exists relu_2 : layer,
    let logits := Dense n linear None (Some (l2 (1 # 1000))) relu_2 in
    let mask := Input "output_mask" hm in
    policy_output (build_model hs hh hd hm n) =
      Some (Softmax "policy" (Multiply [logits; mask]))
    /\ forall p feed,
        eval p feed (Softmax "policy" (Multiply [logits; mask])) =
          (tx ← eval p feed relu_2; x ← as_vec tx;
           tm ← eval p feed mask; m ← as_vec tm;
           y ← multiply2 (dense n linear (kernel p logits) (bias p logits) x) m;
           Some (T1 (softmax y))).
Proof.
  destruct (build_model_heads hs hh hd hm n) as (relu_2 & Hout & _).
  exists relu_2. cbv zeta. split.
  - unfold policy_output. now rewrite Hout.
  - intros p feed. apply policy_head_eval.
Qed.

(** *** The value head in single precision *)

Lemma build_model_heads32 hs hh hd hm n :
  exists relu_2,
    value_output (build_model hs hh hd hm n) =
      Some (Dense 1 tanh_act (Some "value") (Some (l2 (1 # 1000))) relu_2)
    /\ forall lib p feed mh vh md,
        feed "history" = Some (Float32.V2 mh) ->
        Float32.has_shape32 (Float32.V2 mh) hs = true ->
        feed "hands" = Some (Float32.V1 vh) ->
        Float32.has_shape32 (Float32.V1 vh) hh = true ->
        feed "drawpile" = Some (Float32.V2 md) ->
        Float32.has_shape32 (Float32.V2 md) hd = true ->
        exists x, Float32.eval32 lib p feed relu_2 = Some (Float32.V1 x).
Proof.
  eexists. split; [reflexivity|].
  intros lib p feed mh vh md Hh Hhs Hv Hvs Hd Hds.
  cbn -[Float32.has_shape32 Float32.dense32 Float32.leaky_relu32
        Float32.dropout32].
  rewrite Hh, Hv, Hd.
  cbn -[Float32.has_shape32 Float32.dense32 Float32.leaky_relu32
        Float32.dropout32].
  rewrite Hhs, Hvs, Hds.
  cbn -[Float32.dense32 Float32.leaky_relu32 Float32.dropout32]. eauto.
Qed.

Lemma tanh32_range lib z :
  (forall x, Float32.in_unit_interval (Float32.tanh_finite lib x) = true) ->
  (Float32.is_nan z = true -> Float32.tanh32 lib z = S754_nan) /\
  (Float32.is_nan z = false ->
   Float32.in_unit_interval (Float32.tanh32 lib z) = true).
Proof.
  intros Hlib. split.
  - destruct z; cbn; congruence.
  - destruct z as [s|s| |s m e]; cbn [Float32.is_nan Float32.tanh32];
      intros H; try discriminate H; try apply Hlib; destruct s; reflexivity.
Qed.




Lemma first_only_mask_has_nonzero : Exists (fun m => m <> 0) first_only_mask.
Proof. apply Exists_cons_hd. lra. Qed.

(** C1, at a concrete input: with all-zero dense parameters and a mask
    allowing only the first of the 31 actions, the policy output is the
    uniform vector 1/31, so the 30 masked positions keep mass 1/31 each
    and the output is not a distribution over the unmasked positions. *)
Theorem masked_positions_keep_mass :
  exists node,
    policy_output main_model = Some node /\
    zero_state_feed "output_mask" = Some (T1 first_only_mask) /\
    Exists (fun m => m <> 0) first_only_mask /\
    eval zero_params zero_state_feed node = Some (T1 (replicate 31 (/ 31))) /\
    ~ masked_distribution first_only_mask (replicate 31 (/ 31)).
Proof.
  destruct (build_model_heads [MAX_HISTORY; N_ACTION_FEATURES]
              [3 * NUM_CARDS_IN_DECK]%nat
              [MAX_CARDS_IN_DRAW_PILE; NUM_CARD_TYPES] [N_OUTPUTS] N_OUTPUTS)
    as (relu_2 & Hout & Htrunk).
  destruct (Htrunk zero_params zero_state_feed
              (replicate MAX_HISTORY (replicate N_ACTION_FEATURES 0))
              (replicate (3 * NUM_CARDS_IN_DECK) 0)
              (replicate MAX_CARDS_IN_DRAW_PILE (replicate NUM_CARD_TYPES 0)))
    as [x Hx]; try reflexivity.
  eexists. split; [unfold policy_output, main_model; now rewrite Hout|].
  split; [reflexivity|]. split; [exact first_only_mask_has_nonzero|].
  split.
  - etransitivity;
      [exact (policy_head_zero N_OUTPUTS relu_2 zero_state_feed _ _ x
                first_only_mask Hx eq_refl eq_refl)|].
    change N_OUTPUTS with 31%nat.
    rewrite softmax_replicate_0 by lia.
    do 3 f_equal. simpl. lra.
  - intros [Hzero _]. specialize (Hzero 1%nat eq_refl).
    cbn in Hzero. injection Hzero as Hzero.
    assert (0 < / 31) by (apply Rinv_0_lt_compat; lra). lra.
Qed.

End Heads.

(** ** Claims about the constants and the batch size *)

Module SizeClaims.
Import Constants BatchSize BatchSizeFacts.
Open Scope Z_scope.

(** C5, as the code has it: with 11 card types and 8 insert positions
    the policy width 2 * 11 + 8 + 1 is 31, and an all-ones mask has the
    declared mask shape exactly when its length is 31. *)
Theorem n_outputs_is_31 :
  NUM_CARD_TYPES = 11%nat /\ MAX_INSERT_POSITIONS = 8%nat /\
  N_OUTPUTS = (2 * NUM_CARD_TYPES + MAX_INSERT_POSITIONS + 1)%nat /\
  N_OUTPUTS = 31%nat /\
  forall n, Net.has_shape (Net.T1 (replicate n 1%R)) [N_OUTPUTS] = true <-> n = 31%nat.
Proof.
  repeat split; try reflexivity.
  - cbn [Net.has_shape]. rewrite length_replicate. apply Nat.eqb_eq.
  - intros ->. reflexivity.
Qed.

(** C5, as the claim has it, fails: the width is not 38, and an all-ones
    vector of length 38 does not have the declared mask shape. *)
Lemma n_outputs_is_not_38 :
  N_OUTPUTS <> 38%nat /\
  Net.has_shape (Net.T1 (replicate 38 1%R)) [N_OUTPUTS] = false.
Proof. split; [discriminate | reflexivity]. Qed.

(** C3: with enough fuel the loop returns; the batch size is 32 doubled
    [k] times, where [k] is the first count at which the guard
    [b * 128 < n and b < 2048] fails; it lies between 32 and 2048 and is
    a power of two; and 16384 samples give 128. *)
Theorem batch_size_rule (n : Z) (fuel : nat) :
  (6 <= fuel)%nat ->
  exists (b : Z) (k : nat),
    select fuel n = Some b /\
    b = 32 * 2 ^ Z.of_nat k /\
    guard n b = false /\
    (forall i : nat, (i < k)%nat -> guard n (32 * 2 ^ Z.of_nat i) = true) /\
    32 <= b <= 2048 /\
    (exists j, 0 <= j /\ b = 2 ^ j) /\
    select fuel 16384 = Some 128.
Proof.
  intros Hf. destruct (select_total fuel n Hf) as [b Hb].
  pose proof (select_range _ _ _ Hb) as (j & _ & Hj & Hrange).
  pose proof Hb as Hb'. apply while_loop_least in Hb' as (k & _ & Hk & Hg & Hlt).
  exists b, k. repeat split; try assumption; try lia.
  - exists (5 + Z.of_nat j). split; [lia | assumption].
  - destruct fuel as [|[|fuel]]; [lia | lia |].
    unfold select. cbn [while_loop]. rewrite while_loop_unfold. reflexivity.
Qed.

Lemma batch_size_rule_witness :
  exists (b : Z) (k : nat),
    select 6 100000 = Some b /\
    b = 32 * 2 ^ Z.of_nat k /\
    guard 100000 b = false /\
    (forall i : nat, (i < k)%nat -> guard 100000 (32 * 2 ^ Z.of_nat i) = true) /\
    32 <= b <= 2048 /\
    (exists j, 0 <= j /\ b = 2 ^ j) /\
    select 6 16384 = Some 128.
Proof. apply (batch_size_rule 100000 6). lia. Defined.

(** C4: more samples never give a smaller batch size. *)
Theorem batch_size_monotone (fuel : nat) (n1 n2 : Z) :
  (6 <= fuel)%nat -> n1 <= n2 ->
  exists b1 b2,
    select fuel n1 = Some b1 /\ select fuel n2 = Some b2 /\ b1 <= b2.
Proof.
  intros Hf Hn.
  destruct (select_total fuel n1 Hf) as [b1 H1].
  destruct (select_total fuel n2 Hf) as [b2 H2].
  exists b1, b2. repeat split; try assumption.
  eapply (while_loop_mono fuel fuel n1 n2 32); eauto. lia.
Qed.

Lemma batch_size_monotone_witness :
  exists b1 b2,
    select 6 5000 = Some b1 /\ select 6 20000 = Some b2 /\ b1 <= b2.
Proof. apply (batch_size_monotone 6 5000 20000); lia. Defined.

End SizeClaims.

(** ** Claims about the sample loader *)

Module LoaderClaims.
Import Constants Py Numpy Sys Logic SysFacts RunFacts Train Scenario.

Lemma bind_run_quiet {A B} (m : M A) (k : A -> M B) fs a :
  res (m fs) = inr a -> fs_out (m fs) = fs -> log (m fs) = [] ->
  (m ≫= k) fs = k a fs.
Proof.
  intros Hr Hf Hl. rewrite bind_run, Hr, Hf, Hl.
  now destruct (k a fs).
Qed.

Lemma lift_ok {A B} (r : result A) (k : A -> M B) fs a :
  r = inr a -> (lift r ≫= k) fs = k a fs.
Proof. intros ->. now apply bind_run_quiet. Qed.

Lemma lift_err {A B} (r : result A) (k : A -> M B) fs e :
  r = inl e -> (lift r ≫= k) fs = Outcome (inl e) fs [].
Proof. intros ->. reflexivity. Qed.

Lemma getitem_ok {V} (d : gmap string V) key v :
  d !! key = Some v -> getitem d key = inr v.
Proof. unfold getitem. now intros ->. Qed.

Lemma reshape_ok a sh :
  size a = product sh -> reshape a sh = inr {| shape := sh; data := data a |}.
Proof. unfold reshape. intros ->. now rewrite Nat.eqb_refl. Qed.

Lemma reshape_err a sh : size a <> product sh -> reshape a sh = inl ValueError.
Proof.
  unfold reshape. intros H. apply Nat.eqb_neq in H. now rewrite H.
Qed.

Ltac shape_arith :=
  cbv [product foldr MAX_HISTORY N_ACTION_FEATURES NUM_CARDS_IN_DECK
       MAX_CARDS_IN_DRAW_PILE NUM_CARD_TYPES N_OUTPUTS MAX_INSERT_POSITIONS];
  lia.

Lemma np_load_quiet p fs :
  fs_out (np_load p fs) = fs /\ log (np_load p fs) = [].
Proof.
  split.
  - apply (sat_np_load readonly).
  - pose proof (sat_np_load (logs (fun _ => False)) p fs) as H.
    unfold logs in H. destruct (log (np_load p fs)); [reflexivity|].
    now apply Forall_cons in H.
Qed.

(** C7: for an archive holding the six arrays, with [n] the length of
    [Y_value]: when every array holds [n] samples' worth of elements,
    [load_data] returns the two dictionaries of the arrays reshaped to
    [n, 58, 16], [n, 69], [n, 13, 11], [n, 31], [n, 31] and [n, 1] with
    their elements unchanged; when some array does not, it raises
    [ValueError] and returns nothing. *)
Theorem load_data_reshapes_or_fails fs filename batch xh xa xd xm yp yv n :
  res (np_load filename fs) = inr batch ->
  batch !! "X_history" = Some xh -> batch !! "X_hands" = Some xa ->
  batch !! "X_drawpile" = Some xd -> batch !! "X_output_mask" = Some xm ->
  batch !! "Y_policy" = Some yp -> batch !! "Y_value" = Some yv ->
  len yv = inr n ->
  let fits :=
    size xh = (n * (58 * 16))%nat /\ size xa = (n * 69)%nat /\
    size xd = (n * (13 * 11))%nat /\ size xm = (n * 31)%nat /\
    size yp = (n * 31)%nat /\ size yv = n in
  let arr sh a := {| shape := sh; data := data a |} in
  (fits ->
   res (load_data filename fs) =
     inr (<["history" := arr [n; 58; 16]%nat xh]>
            (<["hands" := arr [n; 69]%nat xa]>
              (<["drawpile" := arr [n; 13; 11]%nat xd]>
                (<["output_mask" := arr [n; 31]%nat xm]> ∅))),
          <["policy" := arr [n; 31]%nat yp]>
            (<["value" := arr [n; 1]%nat yv]> ∅))) /\
  (~ fits -> res (load_data filename fs) = inl ValueError).
Proof.
  intros Hload Hxh Hxa Hxd Hxm Hyp Hyv Hn fits arr.
  destruct (np_load_quiet filename fs) as [Hfs Hlog].
  unfold load_data.
  rewrite (bind_run_quiet _ _ _ _ Hload Hfs Hlog).
  rewrite (lift_ok _ _ _ _ (getitem_ok _ _ _ Hyv)), (lift_ok _ _ _ _ Hn).
  rewrite (lift_ok _ _ _ _ (getitem_ok _ _ _ Hxh)).
  assert (P : forall sh a, product sh = size a \/ product sh <> size a)
    by (intros; lia).
  split.
  - intros (H1 & H2 & H3 & H4 & H5 & H6).
    rewrite (lift_ok _ _ _ (arr [n; 58; 16]%nat xh));
      [|apply reshape_ok; shape_arith].
    rewrite (lift_ok _ _ _ _ (getitem_ok _ _ _ Hxa)).
    rewrite (lift_ok _ _ _ (arr [n; 69]%nat xa));
      [|apply reshape_ok; shape_arith].
    rewrite (lift_ok _ _ _ _ (getitem_ok _ _ _ Hxd)).
    rewrite (lift_ok _ _ _ (arr [n; 13; 11]%nat xd));
      [|apply reshape_ok; shape_arith].
    rewrite (lift_ok _ _ _ _ (getitem_ok _ _ _ Hxm)).
    rewrite (lift_ok _ _ _ (arr [n; 31]%nat xm));
      [|apply reshape_ok; shape_arith].
    rewrite (lift_ok _ _ _ _ (getitem_ok _ _ _ Hyp)).
    rewrite (lift_ok _ _ _ (arr [n; 31]%nat yp));
      [|apply reshape_ok; shape_arith].
    rewrite (lift_ok _ _ _ _ (getitem_ok _ _ _ Hyv)).
    rewrite (lift_ok _ _ _ (arr [n; 1]%nat yv));
      [|apply reshape_ok; shape_arith].
    reflexivity.
  - intros Hnot.
    destruct (decide (size xh = (n * (58 * 16))%nat)) as [H1|H1];
      [|erewrite lift_err; [reflexivity|];
        apply reshape_err; shape_arith].
    rewrite (lift_ok _ _ _ (arr [n; 58; 16]%nat xh));
      [|apply reshape_ok; shape_arith].
    rewrite (lift_ok _ _ _ _ (getitem_ok _ _ _ Hxa)).
    destruct (decide (size xa = (n * 69)%nat)) as [H2|H2];
      [|erewrite lift_err; [reflexivity|];
        apply reshape_err; shape_arith].
    rewrite (lift_ok _ _ _ (arr [n; 69]%nat xa));
      [|apply reshape_ok; shape_arith].
    rewrite (lift_ok _ _ _ _ (getitem_ok _ _ _ Hxd)).
    destruct (decide (size xd = (n * (13 * 11))%nat)) as [H3|H3];
      [|erewrite lift_err; [reflexivity|];
        apply reshape_err; shape_arith].
    rewrite (lift_ok _ _ _ (arr [n; 13; 11]%nat xd));
      [|apply reshape_ok; shape_arith].
    rewrite (lift_ok _ _ _ _ (getitem_ok _ _ _ Hxm)).
    destruct (decide (size xm = (n * 31)%nat)) as [H4|H4];
      [|erewrite lift_err; [reflexivity|];
        apply reshape_err; shape_arith].
    rewrite (lift_ok _ _ _ (arr [n; 31]%nat xm));
      [|apply reshape_ok; shape_arith].
    rewrite (lift_ok _ _ _ _ (getitem_ok _ _ _ Hyp)).
    destruct (decide (size yp = (n * 31)%nat)) as [H5|H5];
      [|erewrite lift_err; [reflexivity|];
        apply reshape_err; shape_arith].
    rewrite (lift_ok _ _ _ (arr [n; 31]%nat yp));
      [|apply reshape_ok; shape_arith].
    rewrite (lift_ok _ _ _ _ (getitem_ok _ _ _ Hyv)).
    destruct (decide (size yv = n)) as [H6|H6];
      [|erewrite lift_err; [reflexivity|];
        apply reshape_err; shape_arith].
    exfalso. apply Hnot. unfold fits. tauto.
Qed.

Lemma load_data_reshapes_or_fails_witness :
  res (load_data ["data.npz"] demo_fs) =
    inr (<["history" := {| shape := [1; 58; 16]%nat; data := data (zeros 928) |}]>
           (<["hands" := {| shape := [1; 69]%nat; data := data (zeros 69) |}]>
             (<["drawpile" := {| shape := [1; 13; 11]%nat; data := data (zeros 143) |}]>
               (<["output_mask" := {| shape := [1; 31]%nat; data := data (zeros 31) |}]> ∅))),
         <["policy" := {| shape := [1; 31]%nat; data := data (zeros 31) |}]>
           (<["value" := {| shape := [1; 1]%nat; data := data (zeros 1) |}]> ∅)) /\
  res (load_data ["data.npz"] (<[["data.npz"] := File (Npz short_hands)]> demo_fs)) =
    inl ValueError.
Proof.
  split.
  - apply (load_data_reshapes_or_fails demo_fs ["data.npz"] one_sample
             (zeros 928) (zeros 69) (zeros 143) (zeros 31) (zeros 31)
             (zeros 1) 1); try reflexivity.
    repeat split; reflexivity.
  - apply (load_data_reshapes_or_fails
             (<[["data.npz"] := File (Npz short_hands)]> demo_fs)
             ["data.npz"] short_hands
             (zeros 928) (zeros 68) (zeros 143) (zeros 31) (zeros 31)
             (zeros 1) 1); try reflexivity.
    intros (_ & H & _). vm_compute in H. discriminate H.
Defined.

End LoaderClaims.

(** ** Claims about the driver *)

Module DriverClaims.
Import Constants Py Numpy Sys Logic SysFacts RunFacts Train TrainFacts Scenario.

Section Claims.
Context {W T : Type} (ext : Externals W T) (fuel : nat).

(** C8: on a well-formed file system the log of a run splits in two:
    nothing is created in the first part and nothing is removed in the
    second; and if the run completes, or has anything in the second
    part, then the removal of the output location is in the first part
    whenever that location existed, and every entry the output
    location holds in the end was created in the second part. *)
Theorem output_directory_replaced (args : Args) (fs : gmap path entry) :
  wf_fs fs ->
  let o := main ext fuel args fs in
  exists l1 l2,
    log o = l1 ++ l2 /\
    Forall (fun e => ~ is_created e) l1 /\
    Forall (fun e => ~ is_removed e) l2 /\
    (res o = inr tt \/ l2 <> [] ->
     (output args = [] \/ is_Some (fs !! output args) ->
      Removed (output args) ∈ l1) /\
     forall p e,
       output args `prefix_of` p -> fs_out o !! p = Some e ->
       Created p e ∈ l2).
Proof. apply main_replaces. Qed.

(** C9: two runs that differ only in the value of [--validation_split]
    are the same run, and every fit call holds out the fraction 0.1. *)
Theorem validation_split_flag_unused
    (i o : path) (iw : option path) (v1 v2 : Q) (fs : gmap path entry) :
  let args v := {| input := i; output := o; validation_split := v;
                   initial_weights := iw |} in
  main ext fuel (args v1) fs = main ext fuel (args v2) fs /\
  forall c, Called (CallFit c) ∈ log (main ext fuel (args v1) fs) ->
            fit_validation_split c = 1 # 10.
Proof.
  intros args. split; [reflexivity|].
  intros c Hc. pose proof (main_fit_split ext fuel (args v1) fs) as H.
  unfold logs in H. rewrite Forall_forall in H. exact (H _ Hc).
Qed.

(** C10: in every run, whatever has been logged when a call that
    saves the weights or draws a plot is made holds, in this order,
    the call of [model.save], the files of the full model written
    under [original], the call of the conversion, and the call of
    the converter's save followed by the writing of every file of
    the converted model; both the conversion and the converter's
    save had returned.  And a run stopped by the conversion or the
    converter's save raising, or by anything else after the call of
    [model.save] and before a late call, has made no late call and,
    on a well-formed file system, leaves nothing at [weights.h5]
    (the converter's own files are assumed not to lie there). *)
Theorem weights_and_plots_after_export (args : Args) (fs : gmap path entry) :
  wf_fs fs ->
  (forall t files rel c,
     converted_model ext t = Some files -> (rel, c) ∈ files ->
     ~ ["weights.h5"] `prefix_of` rel) ->
  let o := main ext fuel args fs in
  let out := output args in
  let original := out ++ ["original"] in
  (forall l1 e l2, log o = l1 ++ e :: l2 -> is_late e ->
     exists a b c d saved tree t files,
       l1 = a ++ Called (CallModelSave original) ::
            b ++ Called (CallConvert original "FP16") ::
            c ++ Called (CallConverterSave out) :: d /\
       (exists model trained, saved_model ext model trained = Some saved) /\
       Forall (fun rc => Created (original ++ rc.1) (File rc.2) ∈ b) saved /\
       convert ext tree "FP16" = Some t /\
       converted_model ext t = Some files /\
       Forall (fun rc => Created (out ++ rc.1) (File rc.2) ∈ d) files) /\
  (forall e, res o = inl e ->
     transform_error e \/
     (Called (CallModelSave original) ∈ log o /\
      Forall (fun x => ~ is_late x) (log o)) ->
     Forall (fun x => ~ is_late x) (log o) /\
     fs_out o !! (out ++ ["weights.h5"]) = None).
Proof.
  intros Hwf Hfiles o out original. split.
  - intros l1 e l2 Hl He.
    assert (H0 : reached [] [] []) by constructor.
    pose proof (main_stage ext fuel args fs [] H0 l1 e l2 Hl He) as H.
    cbn [app] in H.
    destruct H as (saved & tree & t & files & Hs & Hc & Hf & Hr).
    cbn [reached] in Hr.
    destruct Hr as (a & d1 & -> & _ & b & d2 & -> & Hb & c & d & -> & _ & Hd).
    exists a, b, c, d, saved, tree, t, files.
    unfold created in Hb, Hd. apply Forall_fmap in Hb, Hd.
    repeat split; assumption.
  - intros e Hres Hcase.
    assert (H : Called (CallModelSave original) ∈ log o /\
                Forall (fun x => ~ is_late x) (log o)).
    { destruct Hcase as [Ht|H]; [|exact H].
      destruct (main_stopped ext fuel args fs e Hres Ht) as [H1 H2].
      split; [|exact H2]. now apply Forall_cons in H1 as [H1 _]. }
    destruct H as [Hin Hq]. split; [exact Hq|].
    exact (main_unproduced ext fuel args Hfiles fs Hwf Hin Hq).
Qed.

End Claims.

Lemma output_directory_replaced_witness :
  let o := main (demo_ext true) 6 demo_args demo_fs in
  exists l1 l2,
    log o = l1 ++ l2 /\
    Forall (fun e => ~ is_created e) l1 /\
    Forall (fun e => ~ is_removed e) l2 /\
    (res o = inr tt \/ l2 <> [] ->
     (output demo_args = [] \/ is_Some (demo_fs !! output demo_args) ->
      Removed (output demo_args) ∈ l1) /\
     forall p e,
       output demo_args `prefix_of` p -> fs_out o !! p = Some e ->
       Created p e ∈ l2).
Proof.
  apply (output_directory_replaced (demo_ext true) 6 demo_args demo_fs).
  vm_compute. reflexivity.
Defined.

Lemma weights_and_plots_after_export_witness :
  let o := main (demo_ext false) 6 demo_args demo_fs in
  res o = inl (ExternalError trt_convert) /\
  Forall (fun x => ~ is_late x) (log o) /\
  fs_out o !! ["out"; "weights.h5"] = None.
Proof.
  split; [vm_compute; reflexivity|].
  apply (weights_and_plots_after_export (demo_ext false) 6 demo_args demo_fs)
    with (e := ExternalError trt_convert).
  - vm_compute. reflexivity.
  - intros t files rel c [= <-] Hin [k Hk].
    apply list_elem_of_singleton in Hin. injection Hin as -> _.
    discriminate Hk.
  - vm_compute. reflexivity.
  - left. now left.
Defined.

End DriverClaims.

(** ** More about the two heads *)

Module HeadFacts.
Import Constants Net NetFacts Scenario More.
Open Scope R_scope.

Lemma has_shape_vec v n : has_shape (T1 v) [n] = true -> length v = n.
Proof. cbn [has_shape]. apply Nat.eqb_eq. Qed.

Lemma multiply2_same (a b : vec) :
  length a = length b -> multiply2 a b = Some (zip_with Rmult a b).
Proof. unfold multiply2. intros ->. now rewrite Nat.eqb_refl. Qed.

Lemma zip_with_ones_r (a : vec) n :
  length a = n -> zip_with Rmult a (replicate n 1) = a.
Proof.
  intros <-. induction a as [|z a IH]; [reflexivity|].
  cbn [length replicate zip_with]. rewrite IH. f_equal. ring.
Qed.

(** With the mask that allows every action the policy head is the plain
    softmax of the dense projection: it evaluates as the same graph
    without the multiplication does. *)
Theorem all_ones_mask_is_unmasked_softmax hs hh hd n p feed mh vh md :
  feed "history" = Some (T2 mh) -> has_shape (T2 mh) hs = true ->
  feed "hands" = Some (T1 vh) -> has_shape (T1 vh) hh = true ->
  feed "drawpile" = Some (T2 md) -> has_shape (T2 md) hd = true ->
  feed "output_mask" = Some (T1 (all_ones_mask n)) ->
  exists logits,
    policy_output (build_model hs hh hd [n] n) =
      Some (Softmax "policy" (Multiply [logits; Input "output_mask" [n]])) /\
    eval p feed (Softmax "policy" (Multiply [logits; Input "output_mask" [n]])) =
      eval p feed (Softmax "policy" logits) /\
    is_Some (eval p feed (Softmax "policy" logits)).
Proof.
  intros Hh Hhs Hv Hvs Hd Hds Hm.
  destruct (build_model_heads hs hh hd [n] n) as (relu_2 & Hout & Htrunk).
  destruct (Htrunk p feed mh vh md Hh Hhs Hv Hvs Hd Hds) as [x Hx].
  eexists. split; [unfold policy_output; now rewrite Hout|].
  rewrite Heads.policy_head_eval. cbn [eval]. rewrite Hx, Hm.
  cbn [as_vec mbind option_bind has_shape map_last].
  unfold all_ones_mask. rewrite length_replicate, Nat.eqb_refl.
  cbn [mbind option_bind as_vec].
  rewrite multiply2_same by now rewrite dense_length, length_replicate.
  cbn [mbind option_bind].
  rewrite zip_with_ones_r by apply dense_length.
  split; [reflexivity | eauto].
Qed.

Lemma all_ones_mask_is_unmasked_softmax_witness :
  exists logits,
    policy_output main_model =
      Some (Softmax "policy" (Multiply [logits; Input "output_mask" [N_OUTPUTS]])) /\
    eval zero_params
         (with_input "output_mask" (T1 (all_ones_mask N_OUTPUTS)) zero_state_feed)
         (Softmax "policy" (Multiply [logits; Input "output_mask" [N_OUTPUTS]])) =
      eval zero_params
           (with_input "output_mask" (T1 (all_ones_mask N_OUTPUTS)) zero_state_feed)
           (Softmax "policy" logits) /\
    is_Some (eval zero_params
               (with_input "output_mask" (T1 (all_ones_mask N_OUTPUTS)) zero_state_feed)
               (Softmax "policy" logits)).
Proof.
  apply (all_ones_mask_is_unmasked_softmax _ _ _ N_OUTPUTS zero_params
           (with_input "output_mask" (T1 (all_ones_mask N_OUTPUTS)) zero_state_feed)
           (replicate MAX_HISTORY (replicate N_ACTION_FEATURES 0))
           (replicate (3 * NUM_CARDS_IN_DECK) 0)
           (replicate MAX_CARDS_IN_DRAW_PILE (replicate NUM_CARD_TYPES 0)));
    reflexivity.
Defined.

(** The value head does not read the mask: feeding any other tensor for
    [output_mask] leaves its result as it was. *)
Theorem value_ignores_mask hs hh hd hm n p feed t :
  exists node,
    value_output (build_model hs hh hd hm n) = Some node /\
    eval p (with_input "output_mask" t feed) node = eval p feed node.
Proof.
  eexists. split; [reflexivity|].
  cbn -[has_shape dense leaky_relu]. reflexivity.
Qed.

End HeadFacts.

(** ** More about the batch size *)

Module BatchFacts.
Import BatchSize BatchSizeFacts.
Open Scope Z_scope.

Lemma select_shape fuel n b :
  select fuel n = Some b ->
  (b = 32 \/ b = 64 \/ b = 128 \/ b = 256 \/ b = 512 \/ b = 1024 \/ b = 2048) /\
  guard n b = false /\
  (32 < b -> guard n (b / 2) = true).
Proof.
  intros Hb. pose proof Hb as Hb'.
  apply while_loop_least in Hb' as (k & _ & -> & Hg & Hlt).
  apply select_range in Hb as (j & Hj & Hpow & _).
  assert (Hk : (k <= 6)%nat).
  { destruct k as [|k]; [lia|].
    specialize (Hlt k ltac:(lia)). apply guard_true in Hlt as [_ Hlt].
    apply doublings_below_cap in Hlt. lia. }
  split; [|split; [assumption|]].
  - destruct k as [|[|[|[|[|[|[|k]]]]]]]; cbn; try lia.
  - intros Hbig. destruct k as [|k]; [cbn in Hbig; lia|].
    specialize (Hlt k ltac:(lia)).
    replace (32 * 2 ^ Z.of_nat (S k) / 2) with (32 * 2 ^ Z.of_nat k); [assumption|].
    rewrite Nat2Z.inj_succ, Z.pow_succ_r by lia.
    replace (32 * (2 * 2 ^ Z.of_nat k)) with (32 * 2 ^ Z.of_nat k * 2) by ring.
    now rewrite Z.div_mul.
Qed.

Lemma select_ratio (fuel : nat) (n b : Z) :
  select fuel n = Some b ->
  (b < 2048 -> n <= 128 * b) /\ (32 < b -> 64 * b < n).
Proof.
  intros Hb. apply select_shape in Hb as (Hvals & Hg & Hhalf). split.
  - intros Hcap. apply guard_false in Hg. lia.
  - intros Hmin. specialize (Hhalf Hmin). apply guard_true in Hhalf as [Hhalf _].
    assert (b = 2 * (b / 2)) by (destruct Hvals as [->|[->|[->|[->|[->|[->| ->]]]]]]; reflexivity).
    lia.
Qed.

(** The batch size chosen gives at most 128 batches per epoch unless it
    is the cap, and more than 64 unless it is the minimum: below the cap
    [n <= 128 * b], and above the minimum [64 * b < n]. *)
Theorem batches_per_epoch (fuel : nat) (n b : Z) :
  select fuel n = Some b ->
  (b < 2048 -> n <= 128 * b) /\ (32 < b -> 64 * b < n).
Proof. exact (select_ratio fuel n b). Qed.

Lemma batches_per_epoch_witness :
  (64 < 2048 -> 5000 <= 128 * 64) /\ (32 < 64 -> 64 * 64 < 5000).
Proof. apply (batches_per_epoch 6 5000 64). reflexivity. Defined.

(** The minimum 32 is chosen exactly up to 4096 samples and the cap 2048
    exactly above 131072 samples. *)
Theorem batch_size_thresholds (fuel : nat) (n b : Z) :
  select fuel n = Some b ->
  (b = 32 <-> n <= 4096) /\ (b = 2048 <-> 131072 < n).
Proof.
  intros Hb. pose proof (select_ratio _ _ _ Hb) as [Hlow Hhigh].
  apply select_shape in Hb as (Hvals & _ & _).
  split; split; intros H; lia.
Qed.

Lemma batch_size_thresholds_witness :
  (32 = 32 <-> 4096 <= 4096) /\ (32 = 2048 <-> 131072 < 4096).
Proof. apply (batch_size_thresholds 6 4096 32). reflexivity. Defined.

End BatchFacts.

(** ** More about the sample loader *)

Module LoaderFacts.
Import Constants Py Numpy Sys Logic SysFacts RunFacts Train Scenario More.

Lemma bind_inr {A B} (m : M A) (k : A -> M B) fs b :
  res ((m ≫= k) fs) = inr b ->
  exists a, res (m fs) = inr a /\ res (k a (fs_out (m fs))) = inr b.
Proof.
  rewrite bind_run. destruct (res (m fs)) as [e|a]; cbn [res]; [discriminate|].
  eauto.
Qed.

Lemma lift_bind_inr {A B} (r : result A) (k : A -> M B) fs b :
  res ((lift r ≫= k) fs) = inr b -> exists a, r = inr a /\ res (k a fs) = inr b.
Proof.
  intros H. apply bind_inr in H as (a & Ha & H).
  destruct r as [e|a']; cbn in Ha, H; [discriminate|].
  injection Ha as ->. eauto.
Qed.

Lemma getitem_inr {V} (d : gmap string V) key v :
  getitem d key = inr v -> d !! key = Some v.
Proof. unfold getitem. destruct (d !! key); congruence. Qed.

Lemma reshape_inr a sh a' :
  reshape a sh = inr a' ->
  size a = product sh /\ a' = {| shape := sh; data := data a |}.
Proof.
  unfold reshape. destruct (Nat.eqb _ _) eqn:E; [|discriminate].
  apply Nat.eqb_eq in E. intros [= <-]. auto.
Qed.

Lemma load_data_quiet filename fs :
  fs_out (load_data filename fs) = fs /\ log (load_data filename fs) = [].
Proof.
  split.
  - apply (sat_load_data readonly).
  - pose proof (sat_load_data (logs (fun _ => False)) filename fs) as H.
    unfold logs in H. destruct (log (load_data filename fs)); [reflexivity|].
    now apply Forall_cons in H.
Qed.

(** [load_data] only reads: it leaves the file system as it found it
    and makes no call, whether it returns or raises. *)
Theorem load_data_reads_only filename fs :
  fs_out (load_data filename fs) = fs /\ log (load_data filename fs) = [].
Proof. exact (load_data_quiet filename fs). Qed.

Ltac shape_arith :=
  cbv [product foldr MAX_HISTORY N_ACTION_FEATURES NUM_CARDS_IN_DECK
       MAX_CARDS_IN_DRAW_PILE NUM_CARD_TYPES N_OUTPUTS MAX_INSERT_POSITIONS]
    in *;
  lia.

Lemma load_data_inv fs filename X Y :
  res (load_data filename fs) = inr (X, Y) ->
  exists batch xh xa xd xm yp yv n,
    res (np_load filename fs) = inr batch /\
    batch !! "X_history" = Some xh /\ batch !! "X_hands" = Some xa /\
    batch !! "X_drawpile" = Some xd /\ batch !! "X_output_mask" = Some xm /\
    batch !! "Y_policy" = Some yp /\ batch !! "Y_value" = Some yv /\
    len yv = inr n /\
    size xh = (n * (58 * 16))%nat /\ size xa = (n * 69)%nat /\
    size xd = (n * (13 * 11))%nat /\ size xm = (n * 31)%nat /\
    size yp = (n * 31)%nat /\ size yv = n /\
    X = <["history" := {| shape := [n; 58; 16]%nat; data := data xh |}]>
          (<["hands" := {| shape := [n; 69]%nat; data := data xa |}]>
            (<["drawpile" := {| shape := [n; 13; 11]%nat; data := data xd |}]>
              (<["output_mask" := {| shape := [n; 31]%nat; data := data xm |}]> ∅))) /\
    Y = <["policy" := {| shape := [n; 31]%nat; data := data yp |}]>
          (<["value" := {| shape := [n; 1]%nat; data := data yv |}]> ∅).
Proof.
  unfold load_data. intros H.
  apply bind_inr in H as (batch & Hload & H).
  rewrite (proj1 (LoaderClaims.np_load_quiet filename fs)) in H.
  apply lift_bind_inr in H as (yv & Hyv & H). apply getitem_inr in Hyv.
  apply lift_bind_inr in H as (n & Hn & H).
  apply lift_bind_inr in H as (xh & Hxh & H). apply getitem_inr in Hxh.
  apply lift_bind_inr in H as (xh' & Hxh' & H). apply reshape_inr in Hxh' as [S1 ->].
  apply lift_bind_inr in H as (xa & Hxa & H). apply getitem_inr in Hxa.
  apply lift_bind_inr in H as (xa' & Hxa' & H). apply reshape_inr in Hxa' as [S2 ->].
  apply lift_bind_inr in H as (xd & Hxd & H). apply getitem_inr in Hxd.
  apply lift_bind_inr in H as (xd' & Hxd' & H). apply reshape_inr in Hxd' as [S3 ->].
  apply lift_bind_inr in H as (xm & Hxm & H). apply getitem_inr in Hxm.
  apply lift_bind_inr in H as (xm' & Hxm' & H). apply reshape_inr in Hxm' as [S4 ->].
  cbv zeta in H.
  apply lift_bind_inr in H as (yp & Hyp & H). apply getitem_inr in Hyp.
  apply lift_bind_inr in H as (yp' & Hyp' & H). apply reshape_inr in Hyp' as [S5 ->].
  apply lift_bind_inr in H as (yv2 & Hyv2 & H). apply getitem_inr in Hyv2.
  assert (yv2 = yv) by congruence. subst yv2.
  apply lift_bind_inr in H as (yv' & Hyv' & H). apply reshape_inr in Hyv' as [S6 ->].
  cbn in H. injection H as <- <-.
  exists batch, xh, xa, xd, xm, yp, yv, n.
  repeat split; try assumption; try reflexivity; shape_arith.
Qed.

(** [load_data] returns only for an archive that loads, holds all six
    arrays, has a [Y_value] with a length [n], and in which every array
    holds exactly [n] samples' worth of elements; what it returns are
    those arrays, elements in stored order, under the fixed shapes. *)
Theorem load_data_returns_only_fitting fs filename X Y :
  res (load_data filename fs) = inr (X, Y) ->
  exists batch xh xa xd xm yp yv n,
    res (np_load filename fs) = inr batch /\
    batch !! "X_history" = Some xh /\ batch !! "X_hands" = Some xa /\
    batch !! "X_drawpile" = Some xd /\ batch !! "X_output_mask" = Some xm /\
    batch !! "Y_policy" = Some yp /\ batch !! "Y_value" = Some yv /\
    len yv = inr n /\
    size xh = (n * (58 * 16))%nat /\ size xa = (n * 69)%nat /\
    size xd = (n * (13 * 11))%nat /\ size xm = (n * 31)%nat /\
    size yp = (n * 31)%nat /\ size yv = n /\
    X = <["history" := {| shape := [n; 58; 16]%nat; data := data xh |}]>
          (<["hands" := {| shape := [n; 69]%nat; data := data xa |}]>
            (<["drawpile" := {| shape := [n; 13; 11]%nat; data := data xd |}]>
              (<["output_mask" := {| shape := [n; 31]%nat; data := data xm |}]> ∅))) /\
    Y = <["policy" := {| shape := [n; 31]%nat; data := data yp |}]>
          (<["value" := {| shape := [n; 1]%nat; data := data yv |}]> ∅).
Proof. exact (load_data_inv fs filename X Y). Qed.

Lemma load_data_returns_only_fitting_witness :
  exists batch xh xa xd xm yp yv n,
    res (np_load ["data.npz"] demo_fs) = inr batch /\
    batch !! "X_history" = Some xh /\ batch !! "X_hands" = Some xa /\
    batch !! "X_drawpile" = Some xd /\ batch !! "X_output_mask" = Some xm /\
    batch !! "Y_policy" = Some yp /\ batch !! "Y_value" = Some yv /\
    len yv = inr n /\
    size xh = (n * (58 * 16))%nat /\ size xa = (n * 69)%nat /\
    size xd = (n * (13 * 11))%nat /\ size xm = (n * 31)%nat /\
    size yp = (n * 31)%nat /\ size yv = n /\
    fst (loaded demo_fs) =
        <["history" := {| shape := [n; 58; 16]%nat; data := data xh |}]>
          (<["hands" := {| shape := [n; 69]%nat; data := data xa |}]>
            (<["drawpile" := {| shape := [n; 13; 11]%nat; data := data xd |}]>
              (<["output_mask" := {| shape := [n; 31]%nat; data := data xm |}]> ∅))) /\
    snd (loaded demo_fs) =
        <["policy" := {| shape := [n; 31]%nat; data := data yp |}]>
          (<["value" := {| shape := [n; 1]%nat; data := data yv |}]> ∅).
Proof.
  apply (load_data_returns_only_fitting demo_fs ["data.npz"]
           (fst (loaded demo_fs)) (snd (loaded demo_fs))).
  vm_compute. reflexivity.
Defined.

Ltac lookup_cases H :=
  repeat (rewrite lookup_insert in H; case_decide; [injection H as <-|]);
  try (rewrite lookup_empty in H; discriminate H).

(** The arrays [load_data] returns are well formed and agree on their
    first dimension: one sample count runs through all six. *)
Theorem load_data_arrays_consistent fs filename X Y :
  res (load_data filename fs) = inr (X, Y) ->
  exists n, forall key a,
    X !! key = Some a \/ Y !! key = Some a ->
    well_formed a /\ len a = inr n.
Proof.
  intros H.
  apply load_data_inv in H
    as (batch & xh & xa & xd & xm & yp & yv & n & _ & _ & _ & _ & _ & _ & _ & _
        & S1 & S2 & S3 & S4 & S5 & S6 & -> & ->).
  exists n. intros key a [H|H]; lookup_cases H;
    (split; [unfold well_formed, size; cbn [data shape]; unfold size in *;
             shape_arith
            | reflexivity]).
Qed.

Lemma load_data_arrays_consistent_witness :
  exists n, forall key a,
    fst (loaded demo_fs) !! key = Some a \/ snd (loaded demo_fs) !! key = Some a ->
    well_formed a /\ len a = inr n.
Proof.
  apply (load_data_arrays_consistent demo_fs ["data.npz"]).
  vm_compute. reflexivity.
Defined.

(** What [load_data] returns fits the model [main] builds: for every
    input the model declares, the first dictionary has an array under
    that name whose shape is the sample count followed by the declared
    shape; and the second has the policy and value targets, one row of
    [N_OUTPUTS] and one scalar per sample. *)
Theorem load_data_fits_model fs filename X Y :
  res (load_data filename fs) = inr (X, Y) ->
  exists n,
    Forall (fun l =>
              match l with
              | Net.Input name sh =>
                  exists a, X !! name = Some a /\ shape a = n :: sh
              | _ => False
              end)
           (Net.inputs main_model) /\
    (exists a, Y !! "policy" = Some a /\ shape a = [n; N_OUTPUTS]) /\
    (exists a, Y !! "value" = Some a /\ shape a = [n; 1%nat]).
Proof.
  intros H.
  apply load_data_inv in H
    as (batch & xh & xa & xd & xm & yp & yv & n & _ & _ & _ & _ & _ & _ & _ & _
        & _ & _ & _ & _ & _ & _ & -> & ->).
  exists n. split; [|split].
  - cbn [Net.inputs main_model Net.build_model].
    repeat constructor; eexists; (split; [reflexivity|reflexivity]).
  - eexists. split; reflexivity.
  - eexists. split; reflexivity.
Qed.

Lemma load_data_fits_model_witness :
  exists n,
    Forall (fun l =>
              match l with
              | Net.Input name sh =>
                  exists a, fst (loaded demo_fs) !! name = Some a /\ shape a = n :: sh
              | _ => False
              end)
           (Net.inputs main_model) /\
    (exists a, snd (loaded demo_fs) !! "policy" = Some a /\ shape a = [n; N_OUTPUTS]) /\
    (exists a, snd (loaded demo_fs) !! "value" = Some a /\ shape a = [n; 1%nat]).
Proof.
  apply (load_data_fits_model demo_fs ["data.npz"]).
  vm_compute. reflexivity.
Defined.

End LoaderFacts.

(** ** More about the driver *)

Module DriverFacts.
Import Constants Py Numpy Sys Logic SysFacts RunFacts Train TrainFacts.
Import Scenario More LoaderFacts.

Lemma lift_res {A} (r : result A) fs a : res (lift r fs) = inr a -> r = inr a.
Proof. destruct r; cbn; congruence. Qed.

(** A bind rule that lets the rest of the program know what the first
    part returned. *)
Lemma sat_bind_res (Q : assertion) `{!Sequential Q} {A B}
    (m : M A) (k : A -> M B) :
  sat Q m -> (forall a fs, res (m fs) = inr a -> sat Q (k a)) ->
  sat Q (m ≫= k).
Proof.
  intros Hm Hk fs. rewrite bind_run. specialize (Hm fs).
  destruct (res (m fs)) as [e|a] eqn:E; [exact Hm|].
  cbn [res fs_out log]. eapply seq_then; [exact Hm | apply (Hk a fs E)].
Qed.

(** *** Failures of the loader *)

(** A failure of [load_data] is the failure of the run: same exception,
    no call made, file system untouched. *)
Theorem main_surfaces_loader_error {W T} (ext : Externals W T) fuel args fs e :
  res (load_data (input args) fs) = inl e ->
  main ext fuel args fs = Outcome (inl e) fs [].
Proof.
  intros H. unfold main. rewrite bind_run, H.
  destruct (load_data_quiet (input args) fs) as [-> ->]. reflexivity.
Qed.

Lemma main_surfaces_loader_error_witness :
  main (demo_ext true) 6 demo_args
       (<[["data.npz"] := File (Npz short_hands)]> demo_fs) =
    Outcome (inl ValueError)
            (<[["data.npz"] := File (Npz short_hands)]> demo_fs) [].
Proof.
  apply (main_surfaces_loader_error (demo_ext true) 6 demo_args).
  vm_compute. reflexivity.
Defined.

Lemma sample_shape_empty d key a rest fs :
  d !! key = Some a -> shape a = 0%nat :: rest ->
  sample_shape d key fs = Outcome (inl IndexError) fs [].
Proof.
  intros Hd Hs. unfold sample_shape.
  rewrite (LoaderClaims.lift_ok _ _ _ a) by now apply LoaderClaims.getitem_ok.
  rewrite bind_run. unfold first. rewrite Hs. reflexivity.
Qed.

(** An archive with no sample loads, but the run then stops with
    [IndexError] at the first [[0]], before any call and without
    touching the file system. *)
Theorem main_rejects_empty_batch {W T} (ext : Externals W T) fuel args fs X y a :
  res (load_data (input args) fs) = inr (X, y) ->
  y !! "value" = Some a -> len a = inr 0%nat ->
  main ext fuel args fs = Outcome (inl IndexError) fs [].
Proof.
  intros H Hv Hlen. pose proof H as Hinv.
  apply load_data_inv in Hinv
    as (batch & xh & xa & xd & xm & yp & yv & n & _ & _ & _ & _ & _ & _ & _ & _
        & _ & _ & _ & _ & _ & _ & HX & HY).
  assert (n = 0%nat) as ->.
  { subst y. rewrite lookup_insert_ne in Hv by discriminate.
    rewrite lookup_insert_eq in Hv. injection Hv as <-.
    cbn in Hlen. congruence. }
  destruct (load_data_quiet (input args) fs) as [Hfs Hlog].
  unfold main. rewrite (LoaderClaims.bind_run_quiet _ _ _ _ H Hfs Hlog).
  cbv beta iota. rewrite bind_run.
  rewrite (sample_shape_empty X "history"
             {| shape := [0; 58; 16]%nat; data := data xh |} [58; 16]%nat);
    [reflexivity| |reflexivity].
  subst X. apply lookup_insert_eq.
Qed.

Lemma main_rejects_empty_batch_witness :
  main (demo_ext true) 6 demo_args empty_fs =
    Outcome (inl IndexError) empty_fs [].
Proof.
  apply (main_rejects_empty_batch (demo_ext true) 6 demo_args empty_fs
           (fst (loaded empty_fs)) (snd (loaded empty_fs))
           {| shape := [0; 1]%nat; data := [] |});
    vm_compute; reflexivity.
Defined.

(** *** The model a run builds *)

Lemma sample_shape_inv d key a sh fs :
  d !! key = Some a -> res (sample_shape d key fs) = inr sh ->
  exists n, shape a = S n :: sh.
Proof.
  intros Hd. unfold sample_shape.
  rewrite (LoaderClaims.lift_ok _ _ _ a) by now apply LoaderClaims.getitem_ok.
  intros H. apply lift_bind_inr in H as (s & Hs & H).
  cbn in H. injection H as <-. unfold first in Hs.
  destruct (shape a) as [|[|n] rest]; [discriminate..|].
  injection Hs as <-. eauto.
Qed.

(** Whatever archive was loaded, the per-sample shapes [main] reads
    off the loaded arrays are the fixed ones, so the network it builds
    is always the same: history 58 x 16, hands 69, draw pile 13 x 11,
    output mask 31, and 31 policy outputs. *)
Theorem main_builds_fixed_model filename fs X y fs' hs hh hd hm row n :
  res (load_data filename fs) = inr (X, y) ->
  res (sample_shape X "history" fs') = inr hs ->
  res (sample_shape X "hands" fs') = inr hh ->
  res (sample_shape X "drawpile" fs') = inr hd ->
  res (sample_shape X "output_mask" fs') = inr hm ->
  res (sample_shape y "policy" fs') = inr row ->
  tuple0 row = inr n ->
  Net.build_model hs hh hd hm n = main_model.
Proof.
  intros H H1 H2 H3 H4 H5 H6.
  apply load_data_inv in H
    as (batch & xh & xa & xd & xm & yp & yv & k & _ & _ & _ & _ & _ & _ & _ & _
        & _ & _ & _ & _ & _ & _ & -> & ->).
  eapply sample_shape_inv in H1 as [? E1]; [|reflexivity].
  eapply sample_shape_inv in H2 as [? E2]; [|reflexivity].
  eapply sample_shape_inv in H3 as [? E3]; [|reflexivity].
  eapply sample_shape_inv in H4 as [? E4]; [|reflexivity].
  eapply sample_shape_inv in H5 as [? E5]; [|reflexivity].
  cbn [shape] in *.
  injection E1 as _ <-. injection E2 as _ <-. injection E3 as _ <-.
  injection E4 as _ <-. injection E5 as _ <-.
  cbn in H6. injection H6 as <-. reflexivity.
Qed.

Lemma main_builds_fixed_model_witness :
  Net.build_model [58; 16]%nat [69%nat] [13; 11]%nat [31%nat] 31 = main_model.
Proof.
  apply (main_builds_fixed_model ["data.npz"] demo_fs
           (fst (loaded demo_fs)) (snd (loaded demo_fs)) ∅
           [58; 16]%nat [69%nat] [13; 11]%nat [31%nat] [31%nat] 31%nat);
    vm_compute; reflexivity.
Defined.

(** *** What [fit] is called with *)

Ltac fit_facts :=
  repeat match goal with
    | H : res (lift _ _) = inr _ |- _ => apply lift_res in H
    | H : res ((match BatchSize.select ?f ?n with _ => _ end) _) = inr _ |- _ =>
        destruct (BatchSize.select f n) eqn:?; cbn in H;
        [injection H as <- | discriminate H]
    end;
  unfold fit_as_scripted; cbn [fit_x fit_y fit_epochs fit_callbacks fit_batch_size];
  repeat split;
  do 2 eexists; repeat split; [apply getitem_inr|..]; eassumption.

Ltac side_fit :=
  intros;
  lazymatch goal with
  | |- may_raise _ _ => apply may_raise_logs
  | |- may_emit _ (Called (CallFit _)) => apply may_emit_logs; cbn [fit_calls]; fit_facts
  | |- may_emit _ _ => apply may_emit_logs; exact I
  | |- may_create _ _ _ => apply may_create_logs; exact I
  | |- may_remove _ _ => apply may_remove_logs; exact I
  end.

Ltac sat_run_res side :=
  repeat
    (cbv zeta;
     lazymatch goal with
     | |- sat _ (mbind _ _) =>
         apply sat_bind_res; [exact _ | solve [sat_run side] | intros ? ? ?]
     | |- sat _ (let '(_, _) := ?x in _) => destruct x
     | _ => solve [sat_run side]
     end).

Lemma logged_after_bind {A} (m : M A) (k : A -> M unit)
    (P : A -> event -> Prop) fs i ev :
  log (m fs) = [] -> (forall a, sat (logs (P a)) (k a)) ->
  log ((m ≫= k) fs) !! i = Some ev ->
  exists a, res (m fs) = inr a /\ P a ev.
Proof.
  intros Hq Hk. rewrite bind_run.
  destruct (res (m fs)) as [e|a]; cbn [log]; rewrite Hq; [discriminate|].
  intros Hi. exists a. split; [reflexivity|].
  specialize (Hk a (fs_out (m fs))). unfold logs in Hk.
  rewrite Forall_lookup in Hk. exact (Hk i ev Hi).
Qed.

(** Whenever a run calls [fit], it is with the two dictionaries
    [load_data] returned, 100 epochs, early stopping on [val_loss]
    (min delta 0.0001, patience 5, best weights restored) followed by
    terminate-on-NaN, and the batch size the doubling loop gives for
    the length of [y["value"]], which lies between 32 and 2048. *)
Theorem fit_called_as_scripted {W T} (ext : Externals W T) fuel args fs i c :
  log (main ext fuel args fs) !! i = Some (Called (CallFit c)) ->
  res (load_data (input args) fs) = inr (fit_x c, fit_y c) /\
  fit_epochs c = 100%nat /\
  fit_callbacks c =
    [EarlyStopping "val_loss" (1 # 10000) 5 true; TerminateOnNaN] /\
  (exists a n,
     fit_y c !! "value" = Some a /\ len a = inr n /\
     BatchSize.select fuel (Z.of_nat n) = Some (fit_batch_size c)) /\
  (32 <= fit_batch_size c <= 2048)%Z.
Proof.
  intros H. unfold main in H.
  eapply (logged_after_bind (load_data (input args)) _
            (fun a => fit_calls (fit_as_scripted fuel a.1 a.2))) in H.
  - destruct H as ([X y] & Hres & HX & Hy & He & Hc & a & n & Ha & Hn & Hb).
    cbn [fst snd] in *. subst X y.
    repeat split; try assumption; eauto;
      destruct (BatchSizeFacts.select_range _ _ _ Hb) as (k & _ & _ & Hr); lia.
  - apply load_data_quiet.
  - intros [X y]. cbn [fst snd]. sat_run_res side_fit.
Qed.

Lemma fit_called_as_scripted_witness :
  res (load_data (input demo_args) demo_fs) =
    inr (fit_x demo_fit_call, fit_y demo_fit_call) /\
  fit_epochs demo_fit_call = 100%nat /\
  fit_callbacks demo_fit_call =
    [EarlyStopping "val_loss" (1 # 10000) 5 true; TerminateOnNaN] /\
  (exists a n,
     fit_y demo_fit_call !! "value" = Some a /\ len a = inr n /\
     BatchSize.select 6 (Z.of_nat n) = Some (fit_batch_size demo_fit_call)) /\
  (32 <= fit_batch_size demo_fit_call <= 2048)%Z.
Proof.
  apply (fit_called_as_scripted (demo_ext true) 6 demo_args demo_fs 0).
  vm_compute. reflexivity.
Defined.

End DriverFacts.

(** ** What a run does to the file system and which calls it makes *)

Module Effects.
Import Constants Py Numpy Sys Logic SysFacts RunFacts Train TrainFacts.
Import Scenario More.

Lemma stat_nonempty (base : path) (c : string) fs :
  res (stat (base ++ [c]) fs) = inr (fs !! (base ++ [c])).
Proof. now destruct base. Qed.

(** *** Nothing changes before the export *)

Lemma intact_pre {A B} (m : M A) (k : A -> M B) :
  sat readonly m -> (forall a, intact_before_export (k a)) ->
  intact_before_export (m ≫= k).
Proof.
  intros Hro Hk fs. rewrite bind_run. specialize (Hro fs). unfold readonly in Hro.
  destruct (res (m fs)) as [e|a]; cbn [res fs_out log]; [auto|].
  intros Hl. apply Forall_app in Hl as [_ Hl].
  rewrite (Hk a _ Hl). exact Hro.
Qed.

Lemma intact_last {A B} (m : M A) ev (k : unit -> M B) :
  (forall fs e, res (m fs) = inl e -> fs_out (m fs) = fs) ->
  is_model_save ev ->
  intact_before_export (m ≫= fun _ => emit ev ≫= k).
Proof.
  intros Hm Hev fs. rewrite bind_run.
  destruct (res (m fs)) as [e|a] eqn:E; cbn [res fs_out log]; [eauto|].
  rewrite bind_run. cbn [emit res fs_out log].
  intros Hl. apply Forall_app in Hl as [_ Hl].
  apply Forall_cons in Hl as [Hl _]. now destruct Hl.
Qed.

Lemma rmtree_fails_clean p fs e :
  res (rmtree p fs) = inl e -> fs_out (rmtree p fs) = fs.
Proof.
  unfold rmtree. rewrite bind_run. cbn [stat res fs_out log].
  destruct (match p with [] => Some Dir | _ => fs !! p end) as [[|c]|];
    cbn; congruence.
Qed.



(** *** Runs that cannot get through *)

Lemma stops_bind {A B} H P (m : M A) (k : A -> M B) :
  sat readonly m -> sat (logs P) m ->
  (forall a, (exists fs, H fs /\ res (m fs) = inr a) -> stops H P (k a)) ->
  stops H P (m ≫= k).
Proof.
  intros Hro Hlog Hk fs Hfs. rewrite bind_run.
  specialize (Hro fs). specialize (Hlog fs). unfold readonly, logs in *.
  destruct (res (m fs)) as [e|a] eqn:E; cbn [res fs_out log]; [eauto|].
  rewrite Hro.
  destruct (Hk a (ex_intro _ fs (conj Hfs E)) fs Hfs) as (He & Hf & Hl).
  repeat split; [assumption.. |]. now apply Forall_app.
Qed.

Lemma stops_here {A B} H P (m : M A) (k : A -> M B) :
  stops H P m -> stops H P (m ≫= k).
Proof.
  intros Hm fs Hfs. rewrite bind_run.
  destruct (Hm fs Hfs) as ([e He] & Hf & Hl). rewrite He. eauto.
Qed.

Lemma path_exists_file (out : path) c fs ex :
  out <> [] -> fs !! out = Some (File c) ->
  res (path_exists out fs) = inr ex -> ex = true.
Proof.
  intros Hne Hf. unfold path_exists. rewrite bind_run.
  cbn [stat res fs_out log mret M_ret ret].
  destruct out; [congruence|]. rewrite Hf. cbn. congruence.
Qed.

Lemma rmtree_file (out : path) c :
  out <> [] ->
  stops (fun fs => fs !! out = Some (File c)) is_training_call (rmtree out).
Proof.
  intros Hne fs Hf. unfold rmtree. rewrite bind_run.
  cbn [stat res fs_out log]. destruct out; [congruence|]. rewrite Hf.
  cbn. eauto.
Qed.

Ltac stops_run :=
  cbv zeta;
  repeat first
    [ lazymatch goal with
      | |- stops _ _ ((_ ≫= _) ≫= _) => fail
      | _ => idtac
      end;
      apply stops_bind;
        [solve [sat_run side_readonly] | solve [sat_run side_logs] | intros ? ?]
    | match goal with x : (_ * _)%type |- _ => destruct x end ].

(** When the output path is a regular file the run cannot complete:
    whatever happens before, it ends with an exception, has made no
    call other than loading weights and fitting, and has left the file
    system, that file included, as it was. *)
Theorem output_file_blocks_run {W T} (ext : Externals W T) fuel args fs c :
  output args <> [] -> fs !! output args = Some (File c) ->
  (exists e, res (main ext fuel args fs) = inl e) /\
  fs_out (main ext fuel args fs) = fs /\
  Forall is_training_call (log (main ext fuel args fs)).
Proof.
  intros Hne. revert fs.
  change (stops (fun fs => fs !! output args = Some (File c)) is_training_call
                (main ext fuel args)).
  unfold main. stops_run.
  match goal with
  | H : exists fs, _ /\ res (path_exists _ _) = inr ?ex |- _ =>
      destruct H as (fs & Hf & Hex);
      apply (path_exists_file _ _ _ _ Hne Hf) in Hex; subst ex
  end.
  apply stops_here. now apply rmtree_file.
Qed.

Lemma output_file_blocks_run_witness :
  (exists e, res (main (demo_ext true) 6 demo_args blocked_fs) = inl e) /\
  fs_out (main (demo_ext true) 6 demo_args blocked_fs) = blocked_fs /\
  Forall is_training_call (log (main (demo_ext true) 6 demo_args blocked_fs)).
Proof.
  apply (output_file_blocks_run (demo_ext true) 6 demo_args blocked_fs
           (Blob "note")).
  - discriminate.
  - vm_compute. reflexivity.
Defined.

(** *** The calls of a run *)

Lemma calls_app l1 l2 : calls (l1 ++ l2) = calls l1 ++ calls l2.
Proof. apply omap_app. Qed.

Lemma calls_quiet l : Forall not_call l -> calls l = [].
Proof.
  induction 1 as [|e l He _ IH]; [reflexivity|].
  destruct e; [destruct He | exact IH | exact IH].
Qed.

Lemma follows_quiet {A B} s (m : M A) (k : A -> M B) :
  sat (logs not_call) m -> (forall a, follows s (k a)) -> follows s (m ≫= k).
Proof.
  intros Hm Hk fs. rewrite bind_run. specialize (Hm fs). unfold logs in Hm.
  apply calls_quiet in Hm.
  destruct (res (m fs)) as [e|a]; cbn [res fs_out log].
  - exists [], s. rewrite Hm. repeat split; [constructor | discriminate].
  - rewrite calls_app, Hm. apply Hk.
Qed.

Lemma follows_emit {B} (P : call -> Prop) s c (k : unit -> M B) :
  P c -> (forall u, follows s (k u)) ->
  follows (P :: s) (emit (Called c) ≫= k).
Proof.
  intros Hc Hk fs. rewrite bind_run. cbn [emit res fs_out log].
  destruct (Hk tt fs) as (s1 & s2 & -> & Hs & Hr).
  exists (P :: s1), s2. repeat split; [now constructor | exact Hr].
Qed.

Lemma follows_nil {A} (m : M A) : sat (logs not_call) m -> follows [] m.
Proof.
  intros Hm fs. exists [], []. specialize (Hm fs). unfold logs in Hm.
  rewrite (calls_quiet _ Hm). repeat split. constructor.
Qed.

Lemma follows_ext {A} s (m m' : M A) :
  (forall fs, m fs = m' fs) -> follows s m' -> follows s m.
Proof. intros E H fs. rewrite E. apply H. Qed.

Ltac follows_run :=
  cbv zeta;
  repeat first
    [ apply follows_emit; [first [reflexivity | exact I] | intros ?]
    | lazymatch goal with |- follows _ (_ ≫= _) => idtac end;
      apply follows_quiet; [solve [sat_run side_logs] | intros ?]
    | match goal with x : (_ * _)%type |- _ => destruct x end ].

Lemma follows_plot_metrics {W T} (ext : Externals W T) history output :
  follows [eq (CallSavefig output)] (plot_metrics ext history output).
Proof.
  unfold plot_metrics. follows_run.
  apply follows_nil. sat_run side_logs.
Qed.

(** The calls a run makes are an initial segment of the script:
    [load_weights] when initial weights were asked for, [fit],
    [model.save] to [original] under the output directory, the
    conversion of that directory with FP16, the converter's save to
    the output directory, [save_weights] to [weights.h5],
    [plot_model] to [model.pdf] and [savefig] to [metrics.pdf] --
    each once, in this order, nothing skipped; a run that returns has
    made them all. *)
Theorem calls_follow_script {W T} (ext : Externals W T) fuel args fs :
  exists s1 s2,
    script args = s1 ++ s2 /\
    Forall2 (fun (P : call -> Prop) c => P c) s1
            (calls (log (main ext fuel args fs))) /\
    (forall u, res (main ext fuel args fs) = inr u -> s2 = []).
Proof.
  revert fs. change (follows (script args) (main ext fuel args)).
  unfold main, script.
  destruct (initial_weights args) as [p|]; cbn [app]; follows_run.
  - eapply follows_ext; [intros fs; apply bind_assoc|]. follows_run.
    apply follows_plot_metrics.
  - apply follows_plot_metrics.
Qed.

(** *** What lies outside the output directory *)

#[export] Instance keeps_outside_sequential out : Sequential (keeps_outside out).
Proof.
  split; unfold keeps_outside.
  - intros fs p _. now left.
  - intros fs0 fs1 fs2 l1 l2 r H1 H2 p Hp.
    destruct (H2 p Hp) as [E2|(N1 & D2 & Hpre)];
      destruct (H1 p Hp) as [E1|(N0 & D1 & Hpre')].
    + left. congruence.
    + right. repeat split; congruence.
    + right. repeat split; congruence.
    + congruence.
Qed.

Lemma may_raise_keeps out e : may_raise (keeps_outside out) e.
Proof. intros fs p _. now left. Qed.

Lemma may_emit_keeps out ev : may_emit (keeps_outside out) ev.
Proof. intros fs p _. now left. Qed.

Lemma may_create_keeps out p e :
  out `prefix_of` p -> may_create (keeps_outside out) p e.
Proof.
  intros Hp fs q Hq. left. apply lookup_insert_ne. now intros ->.
Qed.

Lemma may_remove_keeps out p :
  out `prefix_of` p -> may_remove (keeps_outside out) p.
Proof.
  intros Hp fs q Hq. left.
  destruct (fs !! q) as [e|] eqn:E.
  - apply map_lookup_filter_Some. split; [exact E|].
    cbn. intros Hpq. apply Hq. now transitivity p.
  - apply map_lookup_filter_None. left. exact E.
Qed.

#[export] Instance keeps_outside_lenient out : Lenient (keeps_outside out).
Proof. intros e _. apply may_raise_keeps. Qed.

Ltac side_keeps :=
  intros;
  lazymatch goal with
  | |- may_raise _ _ => apply may_raise_keeps
  | |- may_emit _ _ => apply may_emit_keeps
  | |- may_create _ _ _ =>
      apply may_create_keeps; first [reflexivity | now apply prefix_app_r]
  | |- may_remove _ _ => apply may_remove_keeps; reflexivity
  end.

Lemma keeps_makedirs_from out rest : forall base,
  (forall d, d `prefix_of` base ++ rest ->
             d `prefix_of` out \/ out `prefix_of` d) ->
  sat (keeps_outside out) (makedirs_from base rest).
Proof.
  induction rest as [|c rest IH]; intros base Hc.
  - apply sat_ret. exact _.
  - assert (Hrec : sat (keeps_outside out) (makedirs_from (base ++ [c]) rest)).
    { apply IH. intros d Hd. apply Hc. now rewrite <- app_assoc in Hd. }
    assert (Hd : base ++ [c] `prefix_of` base ++ c :: rest).
    { apply prefix_app, prefix_cons, prefix_nil. }
    cbn [makedirs_from]. cbv zeta. intros fs. rewrite bind_run.
    rewrite stat_nonempty. cbn [stat fs_out log app].
    destruct (fs !! (base ++ [c])) as [[|c0]|] eqn:E.
    + apply Hrec.
    + apply may_raise_keeps.
    + rewrite bind_run. cbn [create res fs_out log].
      eapply seq_then; [|apply Hrec].
      intros p Hp. destruct (decide (p = base ++ [c])) as [->|Hne].
      * right. rewrite lookup_insert_eq.
        destruct (Hc _ Hd) as [H|H]; [auto | contradiction].
      * left. now apply lookup_insert_ne.
Qed.

Lemma keeps_makedirs out target l :
  out `prefix_of` l -> target `prefix_of` l ->
  sat (keeps_outside out) (makedirs target).
Proof.
  intros Ho Ht. apply keeps_makedirs_from. cbn [app]. intros d Hd.
  apply (prefix_weak_total d out l); [now transitivity target | exact Ho].
Qed.

Lemma keeps_write_tree out root files :
  out `prefix_of` root -> sat (keeps_outside out) (write_tree root files).
Proof.
  intros Ho. induction files as [|[rel c] files IH]; cbn [write_tree].
  - apply sat_ret. exact _.
  - assert (Hin : out `prefix_of` root ++ rel).
    { transitivity root; [exact Ho | now apply prefix_app_r]. }
    apply sat_bind; [exact _ | | intros _].
    + apply (keeps_makedirs out _ (root ++ rel)); [exact Hin | apply parent_prefix].
    + apply sat_bind; [exact _ | | intros _; exact IH].
      apply sat_write_file; [exact _ | exact _ |]. now apply may_create_keeps.
Qed.

(** A run deletes and overwrites nothing outside the output
    directory; the only entries it adds there are directories that
    were missing on the way to the output directory. *)
Theorem outside_output_kept {W T} (ext : Externals W T) fuel args fs p :
  ~ output args `prefix_of` p ->
  fs_out (main ext fuel args fs) !! p = fs !! p \/
  (fs !! p = None /\ fs_out (main ext fuel args fs) !! p = Some Dir /\
   p `prefix_of` output args).
Proof.
  revert p.
  change (keeps_outside (output args) fs (fs_out (main ext fuel args fs))
            (log (main ext fuel args fs))
            (raised (res (main ext fuel args fs)))).
  revert fs. change (sat (keeps_outside (output args)) (main ext fuel args)).
  unfold main. sat_run side_keeps.
  all: first
    [ apply (keeps_makedirs _ _ (output args ++ ["original"]));
        [now apply prefix_app_r | reflexivity]
    | apply (keeps_makedirs _ _ (output args)); reflexivity
    | apply keeps_write_tree; first [reflexivity | now apply prefix_app_r] ].
Qed.

Lemma outside_output_kept_witness :
  fs_out (main (demo_ext true) 6 demo_args demo_fs) !! ["data.npz"] =
    demo_fs !! ["data.npz"] \/
  (demo_fs !! ["data.npz"] = None /\
   fs_out (main (demo_ext true) 6 demo_args demo_fs) !! ["data.npz"] = Some Dir /\
   ["data.npz"] `prefix_of` output demo_args).
Proof.
  apply (outside_output_kept (demo_ext true) 6 demo_args demo_fs ["data.npz"]).
  intros [k Hk]. discriminate Hk.
Defined.

(** *** What a run that returns leaves behind *)

Lemma leaves_skip {A B} p (m : M A) (k : A -> M B) :
  (forall a, leaves p (k a)) -> leaves p (m ≫= k).
Proof.
  intros Hk fs b. rewrite bind_run.
  destruct (res (m fs)) as [e|a]; cbn [res fs_out log]; [discriminate|].
  apply Hk.
Qed.

Lemma write_file_returns p c fs u :
  res (write_file p c fs) = inr u ->
  fs_out (write_file p c fs) !! p = Some (File c).
Proof.
  unfold write_file. rewrite bind_run. cbn [stat res fs_out log].
  destruct (match parent p with [] => Some Dir | _ => fs !! parent p end)
    as [[|c0]|]; cbn [raise res]; [|discriminate..].
  rewrite bind_run. cbn [stat res fs_out log].
  destruct (match p with [] => Some Dir | _ => fs !! p end) as [[|c0]|];
    cbn [raise create res fs_out]; [discriminate|intros _..];
    apply lookup_insert_eq.
Qed.

Lemma leaves_write_last p c : leaves p (write_file p c).
Proof. intros fs u H. exists c. now apply write_file_returns in H. Qed.

Lemma leaves_write {B} p c (k : unit -> M B) :
  (forall u, sat (touches (fun q => q <> p)) (k u)) ->
  leaves p (write_file p c ≫= k).
Proof.
  intros Hk fs b. rewrite bind_run.
  destruct (res (write_file p c fs)) as [e|u] eqn:E; cbn [res fs_out log];
    [discriminate|].
  intros _. exists c. rewrite (Hk u (fs_out (write_file p c fs)) p); [|tauto].
  now apply write_file_returns in E.
Qed.

Lemma leaves_plot_metrics {W T} (ext : Externals W T) history p :
  leaves p (plot_metrics ext history p).
Proof.
  unfold plot_metrics. cbv zeta.
  do 4 (apply leaves_skip; intros ?). apply leaves_write_last.
Qed.

Lemma sibling_ne (out : path) (a b : string) :
  a <> b -> out ++ [a] <> out ++ [b].
Proof. intros Hab H. apply app_inv_head in H. congruence. Qed.

Ltac side_siblings :=
  intros;
  lazymatch goal with
  | |- may_raise _ _ => apply may_raise_touches
  | |- may_emit _ _ => apply may_emit_touches
  | |- may_create _ _ _ =>
      apply may_create_touches; apply sibling_ne; discriminate
  end.

Ltac leaves_run :=
  cbv zeta;
  repeat first
    [ apply leaves_write; intros ?; solve [sat_run side_siblings]
    | lazymatch goal with |- leaves _ (_ ≫= _) => idtac end;
      apply leaves_skip; intros ?
    | match goal with x : (_ * _)%type |- _ => destruct x end ].

(** A run that returns has left three regular files in the output
    directory: [weights.h5], [model.pdf] and [metrics.pdf]. *)
Theorem completed_run_leaves_files {W T} (ext : Externals W T) fuel args fs :
  res (main ext fuel args fs) = inr tt ->
  Forall (fun name =>
            exists c, fs_out (main ext fuel args fs) !! (output args ++ [name])
                      = Some (File c))
         ["weights.h5"; "model.pdf"; "metrics.pdf"].
Proof.
  intros H.
  assert (Hw : leaves (output args ++ ["weights.h5"]) (main ext fuel args)).
  { unfold main. leaves_run. }
  assert (Hm : leaves (output args ++ ["model.pdf"]) (main ext fuel args)).
  { unfold main. leaves_run. }
  assert (Hp : leaves (output args ++ ["metrics.pdf"]) (main ext fuel args)).
  { unfold main. leaves_run. apply leaves_plot_metrics. }
  repeat constructor; [eapply Hw | eapply Hm | eapply Hp]; exact H.
Qed.

Lemma completed_run_leaves_files_witness :
  Forall (fun name =>
            exists c,
              fs_out (main (demo_ext true) 6 demo_args demo_fs)
                !! (output demo_args ++ [name]) = Some (File c))
         ["weights.h5"; "model.pdf"; "metrics.pdf"].
Proof.
  apply (completed_run_leaves_files (demo_ext true) 6 demo_args demo_fs).
  vm_compute. reflexivity.
Defined.

(** *** The loss plot *)



(** [plot_metrics] changes the file system at [output] only and makes
    at most one call, [savefig] to [output]; when it returns it has
    made that call and [output] is a regular file. *)
Theorem plot_metrics_saves_one_figure {W T} (ext : Externals W T)
    history output fs :
  let o := plot_metrics ext history output fs in
  (forall p, p <> output -> fs_out o !! p = fs !! p) /\
  (calls (log o) = [] \/ calls (log o) = [CallSavefig output]) /\
  (forall u, res o = inr u ->
     calls (log o) = [CallSavefig output] /\
     exists c, fs_out o !! output = Some (File c)).
Proof.
  cbv zeta. split; [|split].
  - intros p Hp.
    assert (H : sat (touches (fun q => q = output))
                    (plot_metrics ext history output)).
    { sat_run ltac:(intros;
                    lazymatch goal with
                    | |- may_raise _ _ => apply may_raise_touches
                    | |- may_emit _ _ => apply may_emit_touches
                    | |- may_create _ _ _ => now apply may_create_touches
                    end). }
    now apply H.
  - destruct (follows_plot_metrics ext history output fs)
      as (s1 & s2 & E & Hs & _).
    destruct s1 as [|P [|Q s1]]; [| |destruct s2; discriminate E].
    + left. now apply Forall2_nil_inv_l in Hs.
    + right. injection E as <- _.
      apply Forall2_cons_inv_l in Hs as (c & l & Hc & Hl & ->).
      cbv beta in Hc. subst c. now apply Forall2_nil_inv_l in Hl as ->.
  - intros u Hu.
    destruct (follows_plot_metrics ext history output fs)
      as (s1 & s2 & E & Hs & Hr).
    rewrite (Hr u Hu), app_nil_r in E. subst s1. split.
    + apply Forall2_cons_inv_l in Hs as (c & l & Hc & Hl & ->).
      cbv beta in Hc. subst c. now apply Forall2_nil_inv_l in Hl as ->.
    + exact (leaves_plot_metrics ext history output fs u Hu).
Qed.

End Effects.
